(** * PiecewiseJerkSpeedProblem: the quadratic objective of the speed QP

    A shallow embedding of
    [modules/planning/math/piecewise_jerk/piecewise_jerk_speed_problem.cc]:
    the setters, [CalculateKernel] (the upper-triangular compressed-column
    matrix [P]) and [CalculateOffset] (the dense vector [q]).

    - [double] / [c_float] is IEEE-754 binary64, taken from the
      specification of floating-point arithmetic of the Rocq core library
      ([spec_float] with [prec = 53] and [emax = 1024]);
    - the knot count is a [size_t], a [nat]; [int] is the 32-bit signed
      integer: [static_cast<int>] of the knot count wraps around, and the
      products [3 * n] and [4 * n] that overflow are undefined behaviour;
      once they fit, every other [int] expression of the two functions
      lies between [-1] and [4 * n] and is computed in [Z];
    - [std::vector] is a [list]; [operator[]] outside the vector and
      signed overflow are undefined behaviour, [at] outside the vector and
      [resize] to a negative size throw, and a failed [CHECK_EQ] is fatal:
      the ways of not returning are the error constructors of [outcome]. *)

From Stdlib Require Import ZArith Lia Bool.
From Stdlib Require Import Floats.SpecFloat.
From stdpp Require Import base numbers list.

(** ** IEEE-754 binary64 *)

Module Double.

Definition prec : Z := 53.
Definition emax : Z := 1024.

Definition c_float : Type := spec_float.

Definition add : c_float → c_float → c_float := SFadd prec emax.
Definition mul : c_float → c_float → c_float := SFmul prec emax.
Definition div : c_float → c_float → c_float := SFdiv prec emax.
Definition opp : c_float → c_float := SFopp.

Definition eqb : c_float → c_float → bool := SFeqb.
Definition leb : c_float → c_float → bool := SFleb.
Definition ltb : c_float → c_float → bool := SFltb.

(** The double nearest to an integer and to [m * 2^e]; every literal of
    the source and of the scenarios below is represented exactly. *)
Definition of_Z (z : Z) : c_float := binary_normalize prec emax z 0 false.
Definition of_dyadic (m e : Z) : c_float := binary_normalize prec emax m e false.

Definition zero : c_float := S754_zero false.
Definition neg_zero : c_float := S754_zero true.
Definition one : c_float := Eval vm_compute in of_Z 1.
Definition two : c_float := Eval vm_compute in of_Z 2.
Definition four : c_float := Eval vm_compute in of_Z 4.
Definition half : c_float := Eval vm_compute in of_dyadic 1 (-1).
(** [-2.0] is the negation of the literal [2.0]. *)
Definition neg_two : c_float := Eval vm_compute in opp two.

(** [x >= 0.0] and [x <= 0.0] of C++: false on NaN, true on both zeros. *)
Definition nonneg (x : c_float) : Prop := leb zero x = true.
Definition nonpos (x : c_float) : Prop := leb x zero = true.
Definition negative (x : c_float) : Prop := ltb x zero = true.

(** A positive finite number. *)
Definition finite_pos (x : c_float) : Prop :=
  match x with S754_finite false _ _ => True | _ => False end.

(** [signed s x]: [x] is a number (not NaN) that is zero or has sign [s]. *)
Definition signed (s : bool) (x : c_float) : Prop :=
  match x with
  | S754_zero _ => True
  | S754_infinity s' | S754_finite s' _ _ => s' = s
  | S754_nan => False
  end.

End Double.

Import Double.

Declare Scope double_scope.
Delimit Scope double_scope with D.
Infix "+" := add : double_scope.
Infix "*" := mul : double_scope.
Infix "/" := div : double_scope.

(** ** Ways of not returning *)

Inductive outcome (A : Type) : Type :=
  | Ok (a : A)
  | CheckFailed      (* a fatal CHECK_EQ *)
  | OutOfRange       (* std::out_of_range thrown by vector::at *)
  | LengthError      (* std::length_error thrown by vector::resize *)
  | Undefined.       (* operator[] outside the vector, signed overflow *)
Arguments Ok {A} a.
Arguments CheckFailed {A}.
Arguments OutOfRange {A}.
Arguments LengthError {A}.
Arguments Undefined {A}.

Definition obind {A B : Type} (m : outcome A) (k : A → outcome B) : outcome B :=
  match m with
  | Ok a => k a
  | CheckFailed => CheckFailed
  | OutOfRange => OutOfRange
  | LengthError => LengthError
  | Undefined => Undefined
  end.

Notation "'do' x <- m ; k" := (obind m (fun x => k))
  (at level 10, x name, m at level 100, k at level 200,
   format "'[v' 'do'  x  <-  m ; '/' k ']'").

Definition returns {A : Type} (m : outcome A) : Prop := ∃ a, m = Ok a.

(** [for (int i = lo; i < hi; ++i) body]: [count] iterations from [i]. *)
Fixpoint for_steps {S : Type} (count : nat) (i : Z)
    (body : Z → S → outcome S) (s : S) : outcome S :=
  match count with
  | O => Ok s
  | Datatypes.S count' => do s' <- body i s; for_steps count' (i + 1)%Z body s'
  end.

Definition for_range {S : Type} (lo hi : Z)
    (body : Z → S → outcome S) (s : S) : outcome S :=
  for_steps (Z.to_nat (hi - lo)) lo body s.

(** ** The type int *)

Definition INT_MAX : Z := 2147483647.
Definition INT_MIN : Z := -2147483648.

(** [static_cast<int>(z)] of an unsigned value: modulo [2^32], into
    [[INT_MIN, INT_MAX]]. *)
Definition static_cast_int (z : Z) : Z :=
  ((z + 2147483648) mod 4294967296 - 2147483648)%Z.

(** The result of a signed operation whose exact value is [z]. *)
Definition int_of (z : Z) : outcome Z :=
  if bool_decide (INT_MIN ≤ z ≤ INT_MAX)%Z then Ok z else Undefined.

(** [const int kNumParam = 3 * n;] and [const int kNumValue = 4 * n - 1;] *)
Definition kNumParam_of (n : Z) : outcome Z := int_of (3 * n).
Definition kNumValue_of (n : Z) : outcome Z :=
  do t <- int_of (4 * n); int_of (t - 1).

(** The size [resize] is called with, an [int] converted to [size_t]: a
    negative one becomes a size beyond [max_size()]. *)
Definition resize_size (k : Z) : outcome nat :=
  if bool_decide (0 ≤ k)%Z then Ok (Z.to_nat k) else LengthError.

(** ** Vectors *)

Definition in_range {A : Type} (v : list A) (i : Z) : bool :=
  bool_decide (0 ≤ i < Z.of_nat (length v))%Z.

(** [v[i]] *)
Definition vec_get {A : Type} (v : list A) (i : Z) : outcome A :=
  if in_range v i then
    match v !! Z.to_nat i with Some a => Ok a | None => Undefined end
  else Undefined.

(** [v->at(i) += d] *)
Definition at_add (q : list c_float) (i : Z) (d : c_float) : outcome (list c_float) :=
  if in_range q i then Ok (alter (λ x, (x + d)%D) (Z.to_nat i) q) else OutOfRange.

(** The vector whose entry [k] is [f k]. *)
Definition tabulate {A : Type} (f : Z → A) (len : nat) : list A :=
  (λ k : nat, f (Z.of_nat k)) <$> seq 0 len.

(** ** The problem object *)

(** [std::array<double, 3>] *)
Definition array3 : Type := (c_float * c_float * c_float)%type.
Definition arr0 (a : array3) : c_float := a.1.1.
Definition arr1 (a : array3) : c_float := a.1.2.
Definition arr2 (a : array3) : c_float := a.2.

(** The fields the three functions read: those of the base class
    [PiecewiseJerkProblem] ([num_of_knots_], [delta_s_], [weight_ddx_],
    [weight_dddx_]) and those of [PiecewiseJerkSpeedProblem]. *)
Record PiecewiseJerkSpeedProblem : Type := {
  num_of_knots_ : nat;
  delta_s_ : c_float;
  weight_ddx_ : c_float;
  weight_dddx_ : c_float;
  has_x_ref_ : bool;
  weight_x_ref_ : c_float;
  x_ref_ : list c_float;
  has_dx_ref_ : bool;
  weight_dx_ref_ : c_float;
  dx_ref_ : c_float;
  penalty_dx_ : list c_float;
  has_end_state_ref_ : bool;
  weight_end_state_ : array3;
  end_state_ref_ : array3
}.

(** The constructor body: [penalty_dx_.resize(num_of_knots_, 0.0)] on the
    freshly built object [base], whose [penalty_dx_] is the empty vector. *)
Definition construct (base : PiecewiseJerkSpeedProblem) : PiecewiseJerkSpeedProblem :=
  {| num_of_knots_ := num_of_knots_ base;
     delta_s_ := delta_s_ base;
     weight_ddx_ := weight_ddx_ base;
     weight_dddx_ := weight_dddx_ base;
     has_x_ref_ := has_x_ref_ base;
     weight_x_ref_ := weight_x_ref_ base;
     x_ref_ := x_ref_ base;
     has_dx_ref_ := has_dx_ref_ base;
     weight_dx_ref_ := weight_dx_ref_ base;
     dx_ref_ := dx_ref_ base;
     penalty_dx_ := resize (num_of_knots_ base) zero (penalty_dx_ base);
     has_end_state_ref_ := has_end_state_ref_ base;
     weight_end_state_ := weight_end_state_ base;
     end_state_ref_ := end_state_ref_ base |}.

Definition set_x_ref (weight_x_ref : c_float) (x_ref : list c_float)
    (p : PiecewiseJerkSpeedProblem) : outcome PiecewiseJerkSpeedProblem :=
  if bool_decide (length x_ref = num_of_knots_ p) then
    Ok {| num_of_knots_ := num_of_knots_ p;
          delta_s_ := delta_s_ p;
          weight_ddx_ := weight_ddx_ p;
          weight_dddx_ := weight_dddx_ p;
          has_x_ref_ := true;
          weight_x_ref_ := weight_x_ref;
          x_ref_ := x_ref;
          has_dx_ref_ := has_dx_ref_ p;
          weight_dx_ref_ := weight_dx_ref_ p;
          dx_ref_ := dx_ref_ p;
          penalty_dx_ := penalty_dx_ p;
          has_end_state_ref_ := has_end_state_ref_ p;
          weight_end_state_ := weight_end_state_ p;
          end_state_ref_ := end_state_ref_ p |}
  else CheckFailed.

Definition set_dx_ref (weight_dx_ref dx_ref : c_float)
    (p : PiecewiseJerkSpeedProblem) : PiecewiseJerkSpeedProblem :=
  {| num_of_knots_ := num_of_knots_ p;
     delta_s_ := delta_s_ p;
     weight_ddx_ := weight_ddx_ p;
     weight_dddx_ := weight_dddx_ p;
     has_x_ref_ := has_x_ref_ p;
     weight_x_ref_ := weight_x_ref_ p;
     x_ref_ := x_ref_ p;
     has_dx_ref_ := true;
     weight_dx_ref_ := weight_dx_ref;
     dx_ref_ := dx_ref;
     penalty_dx_ := penalty_dx_ p;
     has_end_state_ref_ := has_end_state_ref_ p;
     weight_end_state_ := weight_end_state_ p;
     end_state_ref_ := end_state_ref_ p |}.

Definition set_penalty_dx (penalty_dx : list c_float)
    (p : PiecewiseJerkSpeedProblem) : outcome PiecewiseJerkSpeedProblem :=
  if bool_decide (length penalty_dx = num_of_knots_ p) then
    Ok {| num_of_knots_ := num_of_knots_ p;
          delta_s_ := delta_s_ p;
          weight_ddx_ := weight_ddx_ p;
          weight_dddx_ := weight_dddx_ p;
          has_x_ref_ := has_x_ref_ p;
          weight_x_ref_ := weight_x_ref_ p;
          x_ref_ := x_ref_ p;
          has_dx_ref_ := has_dx_ref_ p;
          weight_dx_ref_ := weight_dx_ref_ p;
          dx_ref_ := dx_ref_ p;
          penalty_dx_ := penalty_dx;
          has_end_state_ref_ := has_end_state_ref_ p;
          weight_end_state_ := weight_end_state_ p;
          end_state_ref_ := end_state_ref_ p |}
  else CheckFailed.

Definition set_end_state_ref (weight_end_state end_state_ref : array3)
    (p : PiecewiseJerkSpeedProblem) : PiecewiseJerkSpeedProblem :=
  {| num_of_knots_ := num_of_knots_ p;
     delta_s_ := delta_s_ p;
     weight_ddx_ := weight_ddx_ p;
     weight_dddx_ := weight_dddx_ p;
     has_x_ref_ := has_x_ref_ p;
     weight_x_ref_ := weight_x_ref_ p;
     x_ref_ := x_ref_ p;
     has_dx_ref_ := has_dx_ref_ p;
     weight_dx_ref_ := weight_dx_ref_ p;
     dx_ref_ := dx_ref_ p;
     penalty_dx_ := penalty_dx_ p;
     has_end_state_ref_ := true;
     weight_end_state_ := weight_end_state;
     end_state_ref_ := end_state_ref |}.

(** What the constructor and the two checked setters maintain. *)
Definition sized (p : PiecewiseJerkSpeedProblem) : Prop :=
  length (penalty_dx_ p) = num_of_knots_ p ∧
  (has_x_ref_ p = true → length (x_ref_ p) = num_of_knots_ p).

(** ** CalculateKernel *)

(** [std::vector<std::pair<c_int, c_float>>]: the (row, value) pairs of one
    column, in the order of their [emplace_back]. *)
Abbreviation column := (list (Z * c_float)).

(** The locals [columns] and [value_index]. *)
Record kernel_state : Type := {
  columns : list column;
  value_index : Z
}.

(** [columns[col].emplace_back(row, value); ++value_index;] *)
Definition emplace_back (col row : Z) (value : c_float) (st : kernel_state)
    : outcome kernel_state :=
  if in_range (columns st) col then
    Ok {| columns := alter (λ c, c ++ [(row, value)]) (Z.to_nat col) (columns st);
          value_index := value_index st + 1 |}
  else Undefined.

(** Lines 66-114: the columns as filled before the count check. *)
Definition fill_columns (p : PiecewiseJerkSpeedProblem) : outcome kernel_state :=
  let n := static_cast_int (Z.of_nat (num_of_knots_ p)) in
  do kNumParam <- kNumParam_of n;
  do kNumValue <- kNumValue_of n;
  do size <- resize_size kNumParam;
  let st := {| columns := replicate size []; value_index := 0 |} in
  do st <- for_range 0 (n - 1) (λ i st,
             emplace_back i i (weight_x_ref_ p) st) st;
  do st <- emplace_back (n - 1) (n - 1)
             (weight_x_ref_ p + arr0 (weight_end_state_ p))%D st;
  do st <- for_range 0 (n - 1) (λ i st,
             do pen <- vec_get (penalty_dx_ p) i;
             emplace_back (n + i) (n + i) (weight_dx_ref_ p + pen)%D st) st;
  do pen <- vec_get (penalty_dx_ p) (n - 1);
  do st <- emplace_back (2 * n - 1) (2 * n - 1)
             (weight_dx_ref_ p + pen + arr1 (weight_end_state_ p))%D st;
  let delta_s_square := (delta_s_ p * delta_s_ p)%D in
  do st <- emplace_back (2 * n) (2 * n)
             (weight_ddx_ p + weight_dddx_ p / delta_s_square)%D st;
  do st <- for_range 1 (n - 1) (λ i st,
             emplace_back (2 * n + i) (2 * n + i)
               (weight_ddx_ p + two * weight_dddx_ p / delta_s_square)%D st) st;
  do st <- emplace_back (3 * n - 1) (3 * n - 1)
             (weight_ddx_ p + weight_dddx_ p / delta_s_square
              + arr2 (weight_end_state_ p))%D st;
  for_range 0 (n - 1) (λ i st,
    emplace_back (2 * n + i) (2 * n + i + 1)
      (neg_two * weight_dddx_ p / delta_s_square)%D st) st.

(** The three output vectors [P_data], [P_indices], [P_indptr]. *)
Record csc : Type := {
  P_data : list c_float;
  P_indices : list Z;
  P_indptr : list Z
}.

Definition csc_empty : csc := {| P_data := []; P_indices := []; P_indptr := [] |}.

(** The inner loop of lines 121-125 over one column. *)
Fixpoint emit_column (c : column) (out : csc) (ind_p : Z) : csc * Z :=
  match c with
  | [] => (out, ind_p)
  | row_data_pair :: rest =>
      emit_column rest
        {| P_data := P_data out ++ [(row_data_pair.2 * two)%D];
           P_indices := P_indices out ++ [row_data_pair.1];
           P_indptr := P_indptr out |}
        (ind_p + 1)%Z
  end.

(** The outer loop of lines 119-126: [i] runs over all of [columns]. *)
Fixpoint emit_columns (cols : list column) (out : csc) (ind_p : Z) : csc * Z :=
  match cols with
  | [] => (out, ind_p)
  | c :: rest =>
      let out1 := {| P_data := P_data out; P_indices := P_indices out;
                     P_indptr := P_indptr out ++ [ind_p] |} in
      let '(out2, ind_p2) := emit_column c out1 ind_p in
      emit_columns rest out2 ind_p2
  end.

(** [CalculateKernel(P_data, P_indices, P_indptr)]; [out] is what the three
    pointed-to vectors hold at the call. *)
Definition CalculateKernel (p : PiecewiseJerkSpeedProblem) (out : csc) : outcome csc :=
  let n := static_cast_int (Z.of_nat (num_of_knots_ p)) in
  do kNumValue <- kNumValue_of n;
  do st <- fill_columns p;
  if bool_decide (value_index st = kNumValue) then
    let '(out', ind_p) := emit_columns (columns st) out 0 in
    Ok {| P_data := P_data out'; P_indices := P_indices out';
          P_indptr := P_indptr out' ++ [ind_p] |}
  else CheckFailed.

(** ** CalculateOffset *)

(** [CalculateOffset(q)]; [q0] is what the pointed-to vector holds at the
    call ([resize] keeps what is there; the vector is not null). *)
Definition CalculateOffset (p : PiecewiseJerkSpeedProblem) (q0 : list c_float)
    : outcome (list c_float) :=
  let n := static_cast_int (Z.of_nat (num_of_knots_ p)) in
  do kNumParam <- kNumParam_of n;
  do size <- resize_size kNumParam;
  let q := resize size zero q0 in
  do q <- for_range 0 n (λ i q,
            do q <- (if has_x_ref_ p then
                       do x <- vec_get (x_ref_ p) i;
                       at_add q i (neg_two * weight_x_ref_ p * x)%D
                     else Ok q);
            if has_dx_ref_ p then
              at_add q (n + i) (neg_two * weight_dx_ref_ p * dx_ref_ p)%D
            else Ok q) q;
  if has_end_state_ref_ p then
    do q <- at_add q (n - 1)
              (neg_two * arr0 (weight_end_state_ p) * arr0 (end_state_ref_ p))%D;
    do q <- at_add q (2 * n - 1)
              (neg_two * arr1 (weight_end_state_ p) * arr1 (end_state_ref_ p))%D;
    at_add q (3 * n - 1)
      (neg_two * arr2 (weight_end_state_ p) * arr2 (end_state_ref_ p))%D
  else Ok q.

(** ** Knot counts within the range of int *)

(** [4 * n] fits an [int]: neither line 67 nor line 68 overflows. *)
Definition kernel_fits_int (p : PiecewiseJerkSpeedProblem) : Prop :=
  (4 * Z.of_nat (num_of_knots_ p) ≤ INT_MAX)%Z.

(** [3 * n] fits an [int]: line 133 does not overflow. *)
Definition offset_fits_int (p : PiecewiseJerkSpeedProblem) : Prop :=
  (3 * Z.of_nat (num_of_knots_ p) ≤ INT_MAX)%Z.

(** ** Reading a compressed-column matrix *)

(** The (row, value) pairs stored for column [c]: the entries of
    [P_indices] and [P_data] from offset [P_indptr[c]] up to
    [P_indptr[c+1]]. *)
Definition slice {A : Type} (l : list A) (lo hi : Z) : list A :=
  take (Z.to_nat (hi - lo)) (drop (Z.to_nat lo) l).

Definition csc_column (m : csc) (c : nat) : list (Z * c_float) :=
  match P_indptr m !! c, P_indptr m !! Datatypes.S c with
  | Some lo, Some hi => zip (slice (P_indices m) lo hi) (slice (P_data m) lo hi)
  | _, _ => []
  end.

(** The start offsets of the columns, from [start]. *)
Fixpoint offsets (start : Z) (cols : list column) : list Z :=
  match cols with
  | [] => []
  | c :: rest => start :: offsets (start + Z.of_nat (length c)) rest
  end.

(** The three vectors that the emission loops build from [cols]. *)
Definition assemble (cols : list column) : csc :=
  {| P_data := (λ e, (e.2 * two)%D) <$> concat cols;
     P_indices := fst <$> concat cols;
     P_indptr := offsets 0 cols ++ [(0 + Z.of_nat (length (concat cols)))%Z] |}.

(** The row indices of a column. *)
Definition rows (c : column) : list Z := fst <$> c.

(** ** Scenarios *)

Definition scenario (w : c_float) (x_ref : list c_float) (has_x has_dx : bool)
    (dx_ref : c_float) : PiecewiseJerkSpeedProblem :=
  {| num_of_knots_ := 2; delta_s_ := one;
     weight_ddx_ := w; weight_dddx_ := w;
     has_x_ref_ := has_x; weight_x_ref_ := w; x_ref_ := x_ref;
     has_dx_ref_ := has_dx; weight_dx_ref_ := w; dx_ref_ := dx_ref;
     penalty_dx_ := [zero; zero];
     has_end_state_ref_ := false;
     weight_end_state_ := (zero, zero, zero);
     end_state_ref_ := (zero, zero, zero) |}.

(** Three knots, all references set, every weight different. *)
Definition knots3 : PiecewiseJerkSpeedProblem :=
  {| num_of_knots_ := 3; delta_s_ := half;
     weight_ddx_ := of_Z 3; weight_dddx_ := of_Z 5;
     has_x_ref_ := true; weight_x_ref_ := of_Z 7;
     x_ref_ := [one; two; four];
     has_dx_ref_ := true; weight_dx_ref_ := of_Z 11; dx_ref_ := half;
     penalty_dx_ := [one; zero; two];
     has_end_state_ref_ := true;
     weight_end_state_ := (of_Z 13, of_Z 17, of_Z 19);
     end_state_ref_ := (four, two, one) |}.

(** Two knots, every weight zero, no reference active; [delta_s] and what
    is stored for the absent references are free. *)
Definition zero_weights (delta_s : c_float) (x_ref : list c_float)
    (dx_ref : c_float) (end_state_ref : array3) : PiecewiseJerkSpeedProblem :=
  {| num_of_knots_ := 2; delta_s_ := delta_s;
     weight_ddx_ := zero; weight_dddx_ := zero;
     has_x_ref_ := false; weight_x_ref_ := zero; x_ref_ := x_ref;
     has_dx_ref_ := false; weight_dx_ref_ := zero; dx_ref_ := dx_ref;
     penalty_dx_ := resize 2 zero [];
     has_end_state_ref_ := false;
     weight_end_state_ := (zero, zero, zero);
     end_state_ref_ := end_state_ref |}.

(** The problem [p] cut down to its first knot. *)
Definition with_one_knot (p : PiecewiseJerkSpeedProblem) : PiecewiseJerkSpeedProblem :=
  {| num_of_knots_ := 1; delta_s_ := delta_s_ p;
     weight_ddx_ := weight_ddx_ p; weight_dddx_ := weight_dddx_ p;
     has_x_ref_ := has_x_ref_ p; weight_x_ref_ := weight_x_ref_ p;
     x_ref_ := take 1 (x_ref_ p);
     has_dx_ref_ := has_dx_ref_ p; weight_dx_ref_ := weight_dx_ref_ p;
     dx_ref_ := dx_ref_ p; penalty_dx_ := take 1 (penalty_dx_ p);
     has_end_state_ref_ := has_end_state_ref_ p;
     weight_end_state_ := weight_end_state_ p;
     end_state_ref_ := end_state_ref_ p |}.

(** The problem [p] with no knot at all. *)
Definition with_no_knot (p : PiecewiseJerkSpeedProblem) : PiecewiseJerkSpeedProblem :=
  {| num_of_knots_ := 0; delta_s_ := delta_s_ p;
     weight_ddx_ := weight_ddx_ p; weight_dddx_ := weight_dddx_ p;
     has_x_ref_ := has_x_ref_ p; weight_x_ref_ := weight_x_ref_ p;
     x_ref_ := [];
     has_dx_ref_ := has_dx_ref_ p; weight_dx_ref_ := weight_dx_ref_ p;
     dx_ref_ := dx_ref_ p; penalty_dx_ := [];
     has_end_state_ref_ := has_end_state_ref_ p;
     weight_end_state_ := weight_end_state_ p;
     end_state_ref_ := end_state_ref_ p |}.

(** The problem [p] before the constructor body has run: no penalty
    stored yet. *)
Definition with_no_penalty (p : PiecewiseJerkSpeedProblem) : PiecewiseJerkSpeedProblem :=
  {| num_of_knots_ := num_of_knots_ p; delta_s_ := delta_s_ p;
     weight_ddx_ := weight_ddx_ p; weight_dddx_ := weight_dddx_ p;
     has_x_ref_ := has_x_ref_ p; weight_x_ref_ := weight_x_ref_ p;
     x_ref_ := x_ref_ p;
     has_dx_ref_ := has_dx_ref_ p; weight_dx_ref_ := weight_dx_ref_ p;
     dx_ref_ := dx_ref_ p; penalty_dx_ := [];
     has_end_state_ref_ := has_end_state_ref_ p;
     weight_end_state_ := weight_end_state_ p;
     end_state_ref_ := end_state_ref_ p |}.

(** ** The stored coefficients, in closed form *)

Definition delta_s_square (p : PiecewiseJerkSpeedProblem) : c_float :=
  (delta_s_ p * delta_s_ p)%D.

Definition penalty_at (p : PiecewiseJerkSpeedProblem) (i : Z) : c_float :=
  nth (Z.to_nat i) (penalty_dx_ p) zero.

(** The coefficient stored on the diagonal at index [k], before doubling. *)
Definition diag_coeff (p : PiecewiseJerkSpeedProblem) (k : Z) : c_float :=
  let n := Z.of_nat (num_of_knots_ p) in
  if bool_decide (k < n - 1)%Z then weight_x_ref_ p
  else if bool_decide (k = n - 1)%Z then
    (weight_x_ref_ p + arr0 (weight_end_state_ p))%D
  else if bool_decide (k < 2 * n - 1)%Z then
    (weight_dx_ref_ p + penalty_at p (k - n))%D
  else if bool_decide (k = 2 * n - 1)%Z then
    (weight_dx_ref_ p + penalty_at p (n - 1) + arr1 (weight_end_state_ p))%D
  else if bool_decide (k = 2 * n)%Z then
    (weight_ddx_ p + weight_dddx_ p / delta_s_square p)%D
  else if bool_decide (k < 3 * n - 1)%Z then
    (weight_ddx_ p + two * weight_dddx_ p / delta_s_square p)%D
  else
    (weight_ddx_ p + weight_dddx_ p / delta_s_square p
     + arr2 (weight_end_state_ p))%D.

(** The coefficient stored for every pair of adjacent acceleration knots. *)
Definition cross_coeff (p : PiecewiseJerkSpeedProblem) : c_float :=
  (neg_two * weight_dddx_ p / delta_s_square p)%D.

Definition stored_column (p : PiecewiseJerkSpeedProblem) (k : Z) : column :=
  let n := Z.of_nat (num_of_knots_ p) in
  (k, diag_coeff p k) ::
  (if bool_decide (2 * n ≤ k < 3 * n - 1)%Z then [((k + 1)%Z, cross_coeff p)] else []).

Definition doubled (e : Z * c_float) : Z * c_float := (e.1, (e.2 * two)%D).

(** [value_index] counts the pairs held by [columns]. *)
Definition counted (st : kernel_state) : Prop :=
  value_index st = Z.of_nat (length (concat (columns st))).

(** Every weight and every per-knot penalty is [>= 0.0]. *)
Definition weights_nonneg (p : PiecewiseJerkSpeedProblem) : Prop :=
  nonneg (weight_x_ref_ p) ∧ nonneg (weight_dx_ref_ p) ∧
  nonneg (weight_ddx_ p) ∧ nonneg (weight_dddx_ p) ∧
  nonneg (arr0 (weight_end_state_ p)) ∧ nonneg (arr1 (weight_end_state_ p)) ∧
  nonneg (arr2 (weight_end_state_ p)) ∧
  Forall nonneg (penalty_dx_ p).

(** An offset sequence never steps down. *)
Definition non_decreasing (l : list Z) : Prop :=
  ∀ (i : nat) (a b : Z), l !! i = Some a → l !! S i = Some b → (a ≤ b)%Z.

(** ** The linear term, in closed form *)

(** [if (active) acc += d] *)
Definition accumulate (active : bool) (acc d : c_float) : c_float :=
  if active then (acc + d)%D else acc.

Definition x_ref_at (p : PiecewiseJerkSpeedProblem) (i : Z) : c_float :=
  nth (Z.to_nat i) (x_ref_ p) zero.

Definition x_term (p : PiecewiseJerkSpeedProblem) (i : Z) : c_float :=
  (neg_two * weight_x_ref_ p * x_ref_at p i)%D.

Definition dx_term (p : PiecewiseJerkSpeedProblem) : c_float :=
  (neg_two * weight_dx_ref_ p * dx_ref_ p)%D.

Definition end_term0 (p : PiecewiseJerkSpeedProblem) : c_float :=
  (neg_two * arr0 (weight_end_state_ p) * arr0 (end_state_ref_ p))%D.
Definition end_term1 (p : PiecewiseJerkSpeedProblem) : c_float :=
  (neg_two * arr1 (weight_end_state_ p) * arr1 (end_state_ref_ p))%D.
Definition end_term2 (p : PiecewiseJerkSpeedProblem) : c_float :=
  (neg_two * arr2 (weight_end_state_ p) * arr2 (end_state_ref_ p))%D.

(** Entry [k] of [q] once the loop over the knots [lo <= i < hi] has run
    on a vector whose entries were [f]. *)
Definition after_knots (p : PiecewiseJerkSpeedProblem) (lo hi : Z)
    (f : Z → c_float) (k : Z) : c_float :=
  let n := Z.of_nat (num_of_knots_ p) in
  if bool_decide (lo ≤ k < hi)%Z then accumulate (has_x_ref_ p) (f k) (x_term p k)
  else if bool_decide (n + lo ≤ k < n + hi)%Z then
    accumulate (has_dx_ref_ p) (f k) (dx_term p)
  else f k.

(** Entry [k] of the returned [q]. *)
Definition q_entry (p : PiecewiseJerkSpeedProblem) (k : Z) : c_float :=
  let n := Z.of_nat (num_of_knots_ p) in
  let e := has_end_state_ref_ p in
  let v := after_knots p 0 n (λ _, zero) k in
  let v := accumulate (e && bool_decide (k = n - 1)%Z) v (end_term0 p) in
  let v := accumulate (e && bool_decide (k = 2 * n - 1)%Z) v (end_term1 p) in
  accumulate (e && bool_decide (k = 3 * n - 1)%Z) v (end_term2 p).

(** ** Changing what is stored for a reference, or the flags alone *)

Definition with_x_ref_data (w : c_float) (x : list c_float)
    (p : PiecewiseJerkSpeedProblem) : PiecewiseJerkSpeedProblem :=
  {| num_of_knots_ := num_of_knots_ p; delta_s_ := delta_s_ p;
     weight_ddx_ := weight_ddx_ p; weight_dddx_ := weight_dddx_ p;
     has_x_ref_ := has_x_ref_ p; weight_x_ref_ := w; x_ref_ := x;
     has_dx_ref_ := has_dx_ref_ p; weight_dx_ref_ := weight_dx_ref_ p;
     dx_ref_ := dx_ref_ p; penalty_dx_ := penalty_dx_ p;
     has_end_state_ref_ := has_end_state_ref_ p;
     weight_end_state_ := weight_end_state_ p;
     end_state_ref_ := end_state_ref_ p |}.

Definition with_dx_ref_data (w d : c_float)
    (p : PiecewiseJerkSpeedProblem) : PiecewiseJerkSpeedProblem :=
  {| num_of_knots_ := num_of_knots_ p; delta_s_ := delta_s_ p;
     weight_ddx_ := weight_ddx_ p; weight_dddx_ := weight_dddx_ p;
     has_x_ref_ := has_x_ref_ p; weight_x_ref_ := weight_x_ref_ p;
     x_ref_ := x_ref_ p;
     has_dx_ref_ := has_dx_ref_ p; weight_dx_ref_ := w; dx_ref_ := d;
     penalty_dx_ := penalty_dx_ p;
     has_end_state_ref_ := has_end_state_ref_ p;
     weight_end_state_ := weight_end_state_ p;
     end_state_ref_ := end_state_ref_ p |}.

Definition with_end_state_data (w r : array3)
    (p : PiecewiseJerkSpeedProblem) : PiecewiseJerkSpeedProblem :=
  {| num_of_knots_ := num_of_knots_ p; delta_s_ := delta_s_ p;
     weight_ddx_ := weight_ddx_ p; weight_dddx_ := weight_dddx_ p;
     has_x_ref_ := has_x_ref_ p; weight_x_ref_ := weight_x_ref_ p;
     x_ref_ := x_ref_ p;
     has_dx_ref_ := has_dx_ref_ p; weight_dx_ref_ := weight_dx_ref_ p;
     dx_ref_ := dx_ref_ p; penalty_dx_ := penalty_dx_ p;
     has_end_state_ref_ := has_end_state_ref_ p;
     weight_end_state_ := w; end_state_ref_ := r |}.

Definition with_flags (has_x has_dx has_end : bool)
    (p : PiecewiseJerkSpeedProblem) : PiecewiseJerkSpeedProblem :=
  {| num_of_knots_ := num_of_knots_ p; delta_s_ := delta_s_ p;
     weight_ddx_ := weight_ddx_ p; weight_dddx_ := weight_dddx_ p;
     has_x_ref_ := has_x; weight_x_ref_ := weight_x_ref_ p;
     x_ref_ := x_ref_ p;
     has_dx_ref_ := has_dx; weight_dx_ref_ := weight_dx_ref_ p;
     dx_ref_ := dx_ref_ p; penalty_dx_ := penalty_dx_ p;
     has_end_state_ref_ := has_end;
     weight_end_state_ := weight_end_state_ p;
     end_state_ref_ := end_state_ref_ p |}.

(** What [set_x_ref] and [set_penalty_dx] leave as it was. *)
Definition unchanged_but_x_ref (p p' : PiecewiseJerkSpeedProblem) : Prop :=
  num_of_knots_ p' = num_of_knots_ p ∧ delta_s_ p' = delta_s_ p ∧
  weight_ddx_ p' = weight_ddx_ p ∧ weight_dddx_ p' = weight_dddx_ p ∧
  has_dx_ref_ p' = has_dx_ref_ p ∧ weight_dx_ref_ p' = weight_dx_ref_ p ∧
  dx_ref_ p' = dx_ref_ p ∧ penalty_dx_ p' = penalty_dx_ p ∧
  has_end_state_ref_ p' = has_end_state_ref_ p ∧
  weight_end_state_ p' = weight_end_state_ p ∧
  end_state_ref_ p' = end_state_ref_ p.

Definition unchanged_but_penalty_dx (p p' : PiecewiseJerkSpeedProblem) : Prop :=
  num_of_knots_ p' = num_of_knots_ p ∧ delta_s_ p' = delta_s_ p ∧
  weight_ddx_ p' = weight_ddx_ p ∧ weight_dddx_ p' = weight_dddx_ p ∧
  has_x_ref_ p' = has_x_ref_ p ∧ weight_x_ref_ p' = weight_x_ref_ p ∧
  x_ref_ p' = x_ref_ p ∧
  has_dx_ref_ p' = has_dx_ref_ p ∧ weight_dx_ref_ p' = weight_dx_ref_ p ∧
  dx_ref_ p' = dx_ref_ p ∧
  has_end_state_ref_ p' = has_end_state_ref_ p ∧
  weight_end_state_ p' = weight_end_state_ p ∧
  end_state_ref_ p' = end_state_ref_ p.

(** ** Sequences of setter calls *)

Inductive setter_call : Type :=
  | Set_x_ref (weight_x_ref : c_float) (x_ref : list c_float)
  | Set_dx_ref (weight_dx_ref dx_ref : c_float)
  | Set_penalty_dx (penalty_dx : list c_float)
  | Set_end_state_ref (weight_end_state end_state_ref : array3).

Definition call (c : setter_call) (p : PiecewiseJerkSpeedProblem)
    : outcome PiecewiseJerkSpeedProblem :=
  match c with
  | Set_x_ref w x => set_x_ref w x p
  | Set_dx_ref w d => Ok (set_dx_ref w d p)
  | Set_penalty_dx pen => set_penalty_dx pen p
  | Set_end_state_ref w r => Ok (set_end_state_ref w r p)
  end.

(** The calls one after the other; a failed check ends the run. *)
Fixpoint configure (cs : list setter_call) (p : PiecewiseJerkSpeedProblem)
    : outcome PiecewiseJerkSpeedProblem :=
  match cs with
  | [] => Ok p
  | c :: rest => do p' <- call c p; configure rest p'
  end.

(** The vector handed to a checked setter has [n] entries. *)
Definition well_sized (n : nat) (c : setter_call) : bool :=
  match c with
  | Set_x_ref _ x => bool_decide (length x = n)
  | Set_penalty_dx pen => bool_decide (length pen = n)
  | Set_dx_ref _ _ | Set_end_state_ref _ _ => true
  end.

Definition is_set_x_ref (c : setter_call) : bool :=
  match c with Set_x_ref _ _ => true | _ => false end.
Definition is_set_dx_ref (c : setter_call) : bool :=
  match c with Set_dx_ref _ _ => true | _ => false end.
Definition is_set_penalty_dx (c : setter_call) : bool :=
  match c with Set_penalty_dx _ => true | _ => false end.
Definition is_set_end_state_ref (c : setter_call) : bool :=
  match c with Set_end_state_ref _ _ => true | _ => false end.

(** Two calls of the same setter. *)
Definition same_setter (a b : setter_call) : bool :=
  is_set_x_ref a && is_set_x_ref b || is_set_dx_ref a && is_set_dx_ref b
  || is_set_penalty_dx a && is_set_penalty_dx b
  || is_set_end_state_ref a && is_set_end_state_ref b.

(** The columns of [P] whose stored values read a field that the call
    writes. *)
Definition touched (n : nat) (c : setter_call) (col : nat) : bool :=
  match c with
  | Set_x_ref _ _ => bool_decide (col < n)
  | Set_dx_ref _ _ | Set_penalty_dx _ => bool_decide (n ≤ col < 2 * n)
  | Set_end_state_ref _ _ =>
      bool_decide (col = n - 1 ∨ col = 2 * n - 1 ∨ col = 3 * n - 1)
  end.

(** The fields [CalculateKernel] reads, and those [CalculateOffset] reads. *)
Definition kernel_inputs (p : PiecewiseJerkSpeedProblem) :=
  (num_of_knots_ p, delta_s_ p, weight_ddx_ p, weight_dddx_ p,
   weight_x_ref_ p, weight_dx_ref_ p, penalty_dx_ p, weight_end_state_ p).

Definition offset_inputs (p : PiecewiseJerkSpeedProblem) :=
  (num_of_knots_ p, has_x_ref_ p, weight_x_ref_ p, x_ref_ p,
   has_dx_ref_ p, weight_dx_ref_ p, dx_ref_ p,
   has_end_state_ref_ p, weight_end_state_ p, end_state_ref_ p).

(** Entry [k] of the vector [CalculateOffset] returns when the entries of
    the resized vector were [f]. *)
Definition q_entry_from (p : PiecewiseJerkSpeedProblem) (f : Z → c_float)
    (k : Z) : c_float :=
  let n := Z.of_nat (num_of_knots_ p) in
  let e := has_end_state_ref_ p in
  let v := after_knots p 0 n f k in
  let v := accumulate (e && bool_decide (k = n - 1)%Z) v (end_term0 p) in
  let v := accumulate (e && bool_decide (k = 2 * n - 1)%Z) v (end_term1 p) in
  accumulate (e && bool_decide (k = 3 * n - 1)%Z) v (end_term2 p).

(** The start offset of column [c] in a problem of [n] knots. *)
Definition column_offset (n c : nat) : Z :=
  if bool_decide (c ≤ 2 * n) then Z.of_nat c
  else if bool_decide (c < 3 * n) then Z.of_nat (2 * c - 2 * n)
  else Z.of_nat (4 * n - 1).

(** [out] with the vectors of [m] pushed behind it. *)
Definition csc_app (out m : csc) : csc :=
  {| P_data := P_data out ++ P_data m;
     P_indices := P_indices out ++ P_indices m;
     P_indptr := P_indptr out ++ P_indptr m |}.

(** * Proofs *)

(** ** Vectors given by their entries *)

Lemma length_tabulate {A} (f : Z → A) len : length (tabulate f len) = len.
Proof. unfold tabulate. by rewrite length_fmap, length_seq. Qed.

Lemma lookup_tabulate {A} (f : Z → A) len (k : nat) :
  k < len → tabulate f len !! k = Some (f (Z.of_nat k)).
Proof.
  intros Hk. unfold tabulate.
  rewrite list_lookup_fmap, lookup_seq_lt by done. done.
Qed.

Lemma tabulate_ext {A} (f g : Z → A) len :
  (∀ k, (0 ≤ k < Z.of_nat len)%Z → f k = g k) → tabulate f len = tabulate g len.
Proof.
  intros Hfg. unfold tabulate. apply list_eq; intros i.
  rewrite !list_lookup_fmap.
  destruct (decide (i < len)) as [Hi|Hi].
  - rewrite lookup_seq_lt by done. simpl. f_equal. apply Hfg. lia.
  - rewrite lookup_seq_ge by lia. done.
Qed.

Lemma replicate_tabulate {A} (x : A) len : replicate len x = tabulate (λ _, x) len.
Proof.
  apply list_eq; intros i. destruct (decide (i < len)) as [Hi|Hi].
  - rewrite lookup_tabulate, lookup_replicate_2 by done. done.
  - rewrite !lookup_ge_None_2; [done | |].
    + rewrite length_tabulate. lia.
    + rewrite length_replicate. lia.
Qed.

Lemma alter_tabulate {A} (h : A → A) (f : Z → A) len (j : Z) :
  (0 ≤ j < Z.of_nat len)%Z →
  alter h (Z.to_nat j) (tabulate f len) =
  tabulate (λ k, if bool_decide (k = j) then h (f k) else f k) len.
Proof.
  intros Hj. apply list_eq; intros i.
  destruct (decide (i < len)) as [Hi|Hi].
  - rewrite lookup_tabulate by done.
    destruct (decide (i = Z.to_nat j)) as [->|Hne].
    + rewrite list_lookup_alter_eq, lookup_tabulate by lia. simpl.
      rewrite bool_decide_true by lia. done.
    + rewrite list_lookup_alter_ne, lookup_tabulate by done.
      rewrite bool_decide_false by lia. done.
  - rewrite !lookup_ge_None_2; [done | |].
    + rewrite length_tabulate. lia.
    + rewrite length_alter, length_tabulate. lia.
Qed.

Lemma in_range_true {A} (v : list A) i :
  (0 ≤ i < Z.of_nat (length v))%Z → in_range v i = true.
Proof. intros. unfold in_range. by apply bool_decide_true. Qed.

Lemma vec_get_nth (v : list c_float) i :
  (0 ≤ i < Z.of_nat (length v))%Z → vec_get v i = Ok (nth (Z.to_nat i) v zero).
Proof.
  intros Hi. unfold vec_get. rewrite in_range_true by done.
  destruct (v !! Z.to_nat i) as [a|] eqn:Hl.
  - f_equal. symmetry. by apply nth_lookup_Some with (d := zero) in Hl.
  - apply lookup_ge_None in Hl. lia.
Qed.

(** ** Knot counts in range *)

Lemma static_cast_int_id z :
  (INT_MIN ≤ z ≤ INT_MAX)%Z → static_cast_int z = z.
Proof.
  unfold INT_MIN, INT_MAX, static_cast_int. intros Hz.
  rewrite Z.mod_small by lia. lia.
Qed.

Lemma int_of_fits z : (INT_MIN ≤ z ≤ INT_MAX)%Z → int_of z = Ok z.
Proof. intros Hz. unfold int_of. by rewrite bool_decide_true. Qed.

Lemma offset_sizes p :
  offset_fits_int p →
  let n := Z.of_nat (num_of_knots_ p) in
  static_cast_int n = n ∧ kNumParam_of n = Ok (3 * n)%Z ∧
  resize_size (3 * n) = Ok (3 * num_of_knots_ p).
Proof.
  unfold offset_fits_int, kNumParam_of, resize_size. intros Hfit.
  cbv zeta. set (n := Z.of_nat (num_of_knots_ p)).
  pose proof (eq_refl : INT_MAX = 2147483647%Z) as Hmax.
  pose proof (eq_refl : INT_MIN = (-2147483648)%Z) as Hmin.
  split; [apply static_cast_int_id; lia|].
  split; [apply int_of_fits; lia|].
  rewrite bool_decide_true by lia. f_equal. lia.
Qed.

Lemma kernel_sizes p :
  kernel_fits_int p →
  let n := Z.of_nat (num_of_knots_ p) in
  static_cast_int n = n ∧ kNumParam_of n = Ok (3 * n)%Z ∧
  kNumValue_of n = Ok (4 * n - 1)%Z ∧
  resize_size (3 * n) = Ok (3 * num_of_knots_ p).
Proof.
  unfold kernel_fits_int. intros Hfit.
  cbv zeta. set (n := Z.of_nat (num_of_knots_ p)).
  pose proof (eq_refl : INT_MAX = 2147483647%Z) as Hmax.
  pose proof (eq_refl : INT_MIN = (-2147483648)%Z) as Hmin.
  destruct (offset_sizes p) as (H1 & H2 & H3); [unfold offset_fits_int; lia|].
  fold n in H1, H2, H3.
  split; [done|]. split; [done|]. split; [|done].
  unfold kNumValue_of. rewrite int_of_fits by lia. cbn [obind].
  apply int_of_fits. lia.
Qed.

(** Outside the range: [2^32 + 2] narrows to [2], [2^32] to [0] and
    [2^31] to [INT_MIN]; for [2^29] knots [4 * n] overflows, and for a
    negative [n] the resize throws. *)
Remark knot_counts_out_of_range :
  static_cast_int 4294967298 = 2%Z ∧ static_cast_int 4294967296 = 0%Z ∧
  static_cast_int 2147483648 = INT_MIN ∧
  kNumValue_of 536870912 = Undefined ∧ kNumParam_of 715827883 = Undefined ∧
  resize_size (-3) = LengthError.
Proof. repeat split; reflexivity. Qed.

(** Once [3 * n] and [4 * n] fit and the columns are allocated, every
    other [int] expression of the two functions fits as well. *)
Lemma later_int_arithmetic_fits (n i : Z) :
  (0 ≤ n)%Z → (4 * n ≤ INT_MAX)%Z → (0 ≤ i ≤ n)%Z →
  Forall (λ z, INT_MIN ≤ z ≤ INT_MAX)%Z
    [n - 1; n + i; 2 * n - 1; 2 * n; 2 * n + i; 2 * n + i + 1; 3 * n - 1;
     4 * n - 1; i + 1]%Z.
Proof.
  unfold INT_MIN, INT_MAX. intros Hn Hfit Hi. repeat constructor; lia.
Qed.

(** ** The sizes kept by the constructor and the setters *)

Lemma construct_sized base :
  penalty_dx_ base = [] → has_x_ref_ base = false →
  sized (construct base) ∧
  penalty_dx_ (construct base) = replicate (num_of_knots_ base) zero.
Proof.
  intros Hpen Hx. unfold sized, construct. cbn. rewrite Hpen, Hx, resize_nil.
  by rewrite length_replicate.
Qed.

Lemma set_x_ref_sized w x p p' : sized p → set_x_ref w x p = Ok p' → sized p'.
Proof.
  unfold set_x_ref, sized. case_bool_decide; [|done].
  intros [Hpen _] [= <-]. done.
Qed.

Lemma set_penalty_dx_sized pen p p' :
  sized p → set_penalty_dx pen p = Ok p' → sized p'.
Proof.
  unfold set_penalty_dx, sized. case_bool_decide; [|done].
  intros [_ Hx] [= <-]. done.
Qed.

Lemma set_dx_ref_sized w d p : sized p → sized (set_dx_ref w d p).
Proof. done. Qed.

Lemma set_end_state_ref_sized w r p : sized p → sized (set_end_state_ref w r p).
Proof. done. Qed.

(** ** The loops of CalculateKernel *)

Lemma emplace_back_tabulate col row v g len vi :
  (0 ≤ col < Z.of_nat len)%Z →
  emplace_back col row v {| columns := tabulate g len; value_index := vi |} =
  Ok {| columns := tabulate (λ k, if bool_decide (k = col) then g k ++ [(row, v)]
                                 else g k) len;
        value_index := vi + 1 |}.
Proof.
  intros Hc. unfold emplace_back. simpl.
  rewrite in_range_true by (rewrite length_tabulate; lia).
  by rewrite (alter_tabulate (λ c, c ++ [(row, v)])) by done.
Qed.

Lemma for_steps_emplace count : ∀ lo base rowf valf body g len vi,
  (∀ i st, (lo ≤ i < lo + Z.of_nat count)%Z →
     body i st = emplace_back (base + i) (rowf i) (valf i) st) →
  (0 ≤ base + lo)%Z → (base + lo + Z.of_nat count ≤ Z.of_nat len)%Z →
  for_steps count lo body {| columns := tabulate g len; value_index := vi |} =
  Ok {| columns :=
          tabulate (λ k, g k ++
                      if bool_decide (base + lo ≤ k < base + lo + Z.of_nat count)%Z
                      then [(rowf (k - base)%Z, valf (k - base)%Z)] else []) len;
        value_index := vi + Z.of_nat count |}.
Proof.
  induction count as [|count IH]; intros lo base rowf valf body g len vi Hb Hlo Hhi.
  - simpl. f_equal. f_equal; [|lia].
    apply tabulate_ext; intros k Hk.
    rewrite bool_decide_false by lia. by rewrite app_nil_r.
  - cbn [for_steps]. rewrite Hb by lia.
    rewrite emplace_back_tabulate by lia. cbn [obind].
    rewrite (IH (lo + 1)%Z base rowf valf) by (try (intros; apply Hb); lia).
    f_equal. f_equal; [|lia].
    apply tabulate_ext; intros k Hk.
    repeat case_bool_decide; try lia; subst; rewrite <- ?app_assoc, ?app_nil_r;
      try done.
    by replace (base + lo - base)%Z with lo by lia.
Qed.

Lemma for_range_emplace lo hi base rowf valf body g len vi :
  (lo ≤ hi)%Z →
  (∀ i st, (lo ≤ i < hi)%Z →
     body i st = emplace_back (base + i) (rowf i) (valf i) st) →
  (0 ≤ base + lo)%Z → (base + hi ≤ Z.of_nat len)%Z →
  for_range lo hi body {| columns := tabulate g len; value_index := vi |} =
  Ok {| columns :=
          tabulate (λ k, g k ++
                      if bool_decide (base + lo ≤ k < base + hi)%Z
                      then [(rowf (k - base)%Z, valf (k - base)%Z)] else []) len;
        value_index := vi + (hi - lo) |}.
Proof.
  intros Hle Hb Hlo Hhi. unfold for_range.
  rewrite (for_steps_emplace _ lo base rowf valf) by (try (intros; apply Hb); lia).
  f_equal. f_equal; [|lia].
  apply tabulate_ext; intros k Hk.
  f_equal. repeat case_bool_decide; try lia; done.
Qed.

(** For two knots or more, the columns as filled and the count reached. *)
Lemma fill_columns_closed p :
  2 ≤ num_of_knots_ p → kernel_fits_int p →
  length (penalty_dx_ p) = num_of_knots_ p →
  fill_columns p =
  Ok {| columns := tabulate (stored_column p) (3 * num_of_knots_ p);
        value_index := 4 * Z.of_nat (num_of_knots_ p) - 1 |}.
Proof.
  intros Hn Hfit Hpen. unfold fill_columns.
  destruct (kernel_sizes p Hfit) as (-> & -> & -> & Hsize). cbn [obind].
  rewrite Hsize. cbn [obind]. clear Hsize.
  set (n := Z.of_nat (num_of_knots_ p)).
  assert (Hn' : (2 ≤ n)%Z) by lia.
  set (len := 3 * num_of_knots_ p).
  assert (Hlen : Z.of_nat len = (3 * n)%Z) by lia.
  rewrite replicate_tabulate.
  rewrite (for_range_emplace 0 (n - 1) 0 (λ i, i) (λ _, weight_x_ref_ p))
    by (try done; lia).
  cbn [obind]. rewrite emplace_back_tabulate by lia. cbn [obind].
  rewrite (for_range_emplace 0 (n - 1) n (λ i, n + i)%Z
             (λ i, (weight_dx_ref_ p + penalty_at p i)%D)); [|lia| |lia|lia].
  2:{ intros i st Hi. rewrite vec_get_nth by lia. done. }
  cbn [obind]. rewrite vec_get_nth by lia. cbn [obind].
  rewrite emplace_back_tabulate by lia. cbn [obind].
  rewrite emplace_back_tabulate by lia. cbn [obind].
  rewrite (for_range_emplace 1 (n - 1) (2 * n) (λ i, 2 * n + i)%Z
             (λ _, (weight_ddx_ p + two * weight_dddx_ p
                                    / (delta_s_ p * delta_s_ p))%D))
    by (try done; lia).
  cbn [obind]. rewrite emplace_back_tabulate by lia. cbn [obind].
  rewrite (for_range_emplace 0 (n - 1) (2 * n) (λ i, 2 * n + i + 1)%Z
             (λ _, (neg_two * weight_dddx_ p / (delta_s_ p * delta_s_ p))%D))
    by (try done; lia).
  f_equal. f_equal; [|lia].
  apply tabulate_ext; intros k Hk.
  unfold stored_column, diag_coeff, cross_coeff, delta_s_square, penalty_at.
  fold n. cbn [app].
  repeat (case_bool_decide; try lia); subst; cbn [app];
    repeat (f_equal; try lia).
Qed.

(** ** The emission loops of CalculateKernel *)

Lemma emit_column_closed c : ∀ out ind_p,
  emit_column c out ind_p =
  ({| P_data := P_data out ++ ((λ e, (e.2 * two)%D) <$> c);
      P_indices := P_indices out ++ (fst <$> c);
      P_indptr := P_indptr out |}, (ind_p + Z.of_nat (length c))%Z).
Proof.
  induction c as [|e c IH]; intros out ind_p.
  - simpl. rewrite !app_nil_r, Z.add_0_r. by destruct out.
  - cbn [emit_column]. rewrite IH. cbn [P_data P_indices P_indptr].
    rewrite !fmap_cons, <- !app_assoc. cbn [app length]. f_equal. lia.
Qed.

Lemma emit_columns_closed cols : ∀ out ind_p,
  emit_columns cols out ind_p =
  ({| P_data := P_data out ++ ((λ e, (e.2 * two)%D) <$> concat cols);
      P_indices := P_indices out ++ (fst <$> concat cols);
      P_indptr := P_indptr out ++ offsets ind_p cols |},
   (ind_p + Z.of_nat (length (concat cols)))%Z).
Proof.
  induction cols as [|c cols IH]; intros out ind_p.
  - simpl. rewrite !app_nil_r, Z.add_0_r. by destruct out.
  - cbn [emit_columns]. rewrite emit_column_closed, IH.
    cbn [P_data P_indices P_indptr concat offsets].
    rewrite !fmap_app, <- !app_assoc, length_app. cbn [app].
    f_equal. lia.
Qed.

Lemma CalculateKernel_closed p :
  2 ≤ num_of_knots_ p → kernel_fits_int p →
  length (penalty_dx_ p) = num_of_knots_ p →
  CalculateKernel p csc_empty =
  Ok (assemble (tabulate (stored_column p) (3 * num_of_knots_ p))).
Proof.
  intros Hn Hfit Hpen. unfold CalculateKernel.
  destruct (kernel_sizes p Hfit) as (-> & _ & -> & _). cbn [obind].
  rewrite fill_columns_closed by done. cbn [obind value_index columns].
  rewrite bool_decide_true by done.
  rewrite emit_columns_closed. done.
Qed.

(** ** Reading the assembled matrix back *)

Lemma lookup_offsets cols : ∀ start (c : nat),
  c ≤ length cols →
  (offsets start cols ++ [(start + Z.of_nat (length (concat cols)))%Z]) !! c =
  Some (start + Z.of_nat (length (concat (take c cols))))%Z.
Proof.
  induction cols as [|col cols IH]; intros start c Hc.
  - simpl in Hc. replace c with 0 by lia. done.
  - destruct c as [|c].
    + simpl. f_equal. lia.
    + cbn [offsets concat take length] in *. rewrite <- app_comm_cons.
      cbn [lookup list_lookup]. 
      replace (start + Z.of_nat (length (col ++ concat cols)))%Z
        with ((start + Z.of_nat (length col)) + Z.of_nat (length (concat cols)))%Z
        by (rewrite length_app; lia).
      rewrite IH by lia. f_equal. rewrite length_app. lia.
Qed.

Lemma zip_fst_doubled (col : column) :
  zip (fst <$> col) ((λ e, (e.2 * two)%D) <$> col) = doubled <$> col.
Proof.
  induction col as [|[r v] col IH]; [done|].
  rewrite !fmap_cons. cbn [zip zip_with]. by rewrite IH.
Qed.

Lemma slice_middle {A} (pre mid post : list A) :
  slice (pre ++ mid ++ post) (0 + Z.of_nat (length pre))
    (0 + Z.of_nat (length (pre ++ mid))) = mid.
Proof.
  unfold slice. rewrite length_app.
  rewrite drop_app_length' by lia.
  by rewrite take_app_length' by lia.
Qed.

Lemma slice_fmap_concat {A B} (f : A → B) (cols : list (list A)) (c : nat) col :
  cols !! c = Some col →
  slice (f <$> concat cols)
    (0 + Z.of_nat (length (concat (take c cols))))
    (0 + Z.of_nat (length (concat (take (S c) cols)))) = f <$> col.
Proof.
  intros Hc.
  rewrite (take_S_r _ _ _ Hc), concat_app. simpl concat. rewrite app_nil_r.
  rewrite <- (take_drop_middle _ _ _ Hc) at 1.
  rewrite concat_app, concat_cons, !fmap_app.
  rewrite <- (length_fmap f (concat (take c cols))).
  rewrite <- (length_fmap f (concat (take c cols) ++ col)), fmap_app.
  apply slice_middle.
Qed.

Lemma csc_column_assemble cols (c : nat) col :
  cols !! c = Some col → csc_column (assemble cols) c = doubled <$> col.
Proof.
  intros Hc. pose proof (lookup_lt_Some _ _ _ Hc) as Hlt.
  unfold csc_column, assemble. cbn [P_data P_indices P_indptr].
  rewrite (lookup_offsets cols 0 c), (lookup_offsets cols 0 (S c))
    by lia.
  rewrite !(slice_fmap_concat _ _ _ _ Hc). apply zip_fst_doubled.
Qed.

(** ** What CalculateKernel stores and emits, column by column *)

Lemma kernel_columns p :
  2 ≤ num_of_knots_ p → kernel_fits_int p →
  length (penalty_dx_ p) = num_of_knots_ p →
  ∃ st m,
    fill_columns p = Ok st ∧
    CalculateKernel p csc_empty = Ok m ∧
    value_index st = (4 * Z.of_nat (num_of_knots_ p) - 1)%Z ∧
    m = assemble (columns st) ∧
    length (columns st) = 3 * num_of_knots_ p ∧
    ∀ c : nat, c < 3 * num_of_knots_ p →
      columns st !! c = Some (stored_column p (Z.of_nat c)) ∧
      csc_column m c = doubled <$> stored_column p (Z.of_nat c).
Proof.
  intros Hn Hfit Hpen. eexists _, _.
  split; [by apply fill_columns_closed|].
  split; [by apply CalculateKernel_closed|].
  cbn [value_index columns]. split; [done|]. split; [done|].
  split; [by rewrite length_tabulate|].
  intros c Hc.
  assert (Hl := lookup_tabulate (stored_column p) _ c Hc).
  split; [done|]. by apply csc_column_assemble.
Qed.

Ltac coeff_cases :=
  unfold stored_column, diag_coeff, cross_coeff;
  repeat case_bool_decide; try lia.

(** C1. With two knots or more, the acceleration block of the columns
    holds, before the doubling: at the first knot (index [2n]) the diagonal
    coefficient [weight_ddx + weight_dddx / delta_s^2]; at every interior
    knot [2n + i], [0 < i < n - 1], the diagonal coefficient
    [weight_ddx + 2 * weight_dddx / delta_s^2]; at the terminal knot
    [3n - 1] the diagonal coefficient
    [weight_ddx + weight_dddx / delta_s^2 + weight_end_state[2]]; and in
    every column [2n + i], [0 <= i < n - 1], after the diagonal, the cross
    coefficient [-2 * weight_dddx / delta_s^2] at row [2n + i + 1].  Every
    value of [P_data] is a stored coefficient times [2.0], so each column
    read back from the output holds the doubled coefficients.  The knot
    count is one whose [4 * n] fits an [int]. *)
Theorem acceleration_block_stored_then_doubled p :
  2 ≤ num_of_knots_ p → kernel_fits_int p →
  length (penalty_dx_ p) = num_of_knots_ p →
  let n := num_of_knots_ p in
  let jerk := (weight_dddx_ p / delta_s_square p)%D in
  let jerk2 := (two * weight_dddx_ p / delta_s_square p)%D in
  let cross := (neg_two * weight_dddx_ p / delta_s_square p)%D in
  let first := (weight_ddx_ p + jerk)%D in
  let interior := (weight_ddx_ p + jerk2)%D in
  let terminal := (weight_ddx_ p + jerk + arr2 (weight_end_state_ p))%D in
  ∃ st m,
    fill_columns p = Ok st ∧
    CalculateKernel p csc_empty = Ok m ∧
    columns st !! (2 * n) =
      Some [(Z.of_nat (2 * n), first); (Z.of_nat (2 * n + 1), cross)] ∧
    csc_column m (2 * n) =
      [(Z.of_nat (2 * n), (first * two)%D);
       (Z.of_nat (2 * n + 1), (cross * two)%D)] ∧
    (∀ i : nat, 0 < i < n - 1 →
       columns st !! (2 * n + i) =
         Some [(Z.of_nat (2 * n + i), interior);
               (Z.of_nat (2 * n + i + 1), cross)] ∧
       csc_column m (2 * n + i) =
         [(Z.of_nat (2 * n + i), (interior * two)%D);
          (Z.of_nat (2 * n + i + 1), (cross * two)%D)]) ∧
    columns st !! (3 * n - 1) = Some [(Z.of_nat (3 * n - 1), terminal)] ∧
    csc_column m (3 * n - 1) = [(Z.of_nat (3 * n - 1), (terminal * two)%D)] ∧
    P_data m = (λ e, (e.2 * two)%D) <$> concat (columns st) ∧
    P_indices m = fst <$> concat (columns st).
Proof.
  intros Hn Hfit Hpen n jerk jerk2 cross first interior terminal.
  destruct (kernel_columns p Hn Hfit Hpen)
    as (st & m & Hst & Hm & _ & Hasm & _ & Hcol).
  exists st, m. split; [done|]. split; [done|].
  assert (Hshape : ∀ (c : nat) (d : c_float) (tl : column),
            c < 3 * n → stored_column p (Z.of_nat c) = (Z.of_nat c, d) :: tl →
            columns st !! c = Some ((Z.of_nat c, d) :: tl) ∧
            csc_column m c = doubled <$> ((Z.of_nat c, d) :: tl)).
  { intros c d tl Hc Heq. destruct (Hcol c Hc) as [H1 H2].
    rewrite Heq in H1, H2. done. }
  subst n.
  assert (H0 : stored_column p (Z.of_nat (2 * num_of_knots_ p)) =
               [(Z.of_nat (2 * num_of_knots_ p), first);
                (Z.of_nat (2 * num_of_knots_ p + 1), cross)]).
  { coeff_cases. by rewrite (Nat2Z.inj_add _ 1). }
  assert (Hi : ∀ i : nat, 0 < i < num_of_knots_ p - 1 →
               stored_column p (Z.of_nat (2 * num_of_knots_ p + i)) =
               [(Z.of_nat (2 * num_of_knots_ p + i), interior);
                (Z.of_nat (2 * num_of_knots_ p + i + 1), cross)]).
  { intros i Hi. coeff_cases. by rewrite (Nat2Z.inj_add _ 1). }
  assert (Ht : stored_column p (Z.of_nat (3 * num_of_knots_ p - 1)) =
               [(Z.of_nat (3 * num_of_knots_ p - 1), terminal)]).
  { coeff_cases. done. }
  destruct (λ H, Hshape _ _ _ H H0) as [? ?]; [lia|].
  destruct (λ H, Hshape _ _ _ H Ht) as [? ?]; [lia|].
  repeat split; try done.
  - apply (λ H, Hshape _ _ _ H (Hi i ltac:(done))). lia.
  - apply (λ H, Hshape _ _ _ H (Hi i ltac:(done))). lia.
  - by rewrite Hasm.
  - by rewrite Hasm.
Qed.

Lemma acceleration_block_witness :
  ∃ st m, fill_columns knots3 = Ok st ∧ CalculateKernel knots3 csc_empty = Ok m ∧
          columns st !! 8 = Some [(8%Z, (of_Z 3 + of_Z 5 / (half * half) + of_Z 19)%D)].
Proof.
  destruct (acceleration_block_stored_then_doubled knots3)
    as (st & m & Hst & Hm & _ & _ & _ & Ht & _);
    [cbn [knots3 num_of_knots_]; lia
    |unfold kernel_fits_int, INT_MAX; cbn [knots3 num_of_knots_]; lia
    |reflexivity |].
  exists st, m. exact (conj Hst (conj Hm Ht)).
Defined.

(** C2. With two knots or more, the column read back from the output at
    position index [i < n - 1] holds the single diagonal value
    [weight_x_ref * 2.0], at the terminal position index [n - 1] the value
    [(weight_x_ref + weight_end_state[0]) * 2.0]; at velocity index
    [n + i], [i < n - 1], the value [(weight_dx_ref + penalty_dx[i]) * 2.0],
    and at the terminal velocity index [2n - 1] the value
    [(weight_dx_ref + penalty_dx[n-1] + weight_end_state[1]) * 2.0].  The
    knot count is one whose [4 * n] fits an [int]. *)
Theorem position_velocity_diagonal p :
  2 ≤ num_of_knots_ p → kernel_fits_int p →
  length (penalty_dx_ p) = num_of_knots_ p →
  let n := num_of_knots_ p in
  let pen (i : nat) := nth i (penalty_dx_ p) zero in
  ∃ m,
    CalculateKernel p csc_empty = Ok m ∧
    (∀ i : nat, i < n - 1 →
       csc_column m i = [(Z.of_nat i, (weight_x_ref_ p * two)%D)]) ∧
    csc_column m (n - 1) =
      [(Z.of_nat (n - 1),
        ((weight_x_ref_ p + arr0 (weight_end_state_ p)) * two)%D)] ∧
    (∀ i : nat, i < n - 1 →
       csc_column m (n + i) =
         [(Z.of_nat (n + i), ((weight_dx_ref_ p + pen i) * two)%D)]) ∧
    csc_column m (2 * n - 1) =
      [(Z.of_nat (2 * n - 1),
        ((weight_dx_ref_ p + pen (n - 1) + arr1 (weight_end_state_ p)) * two)%D)].
Proof.
  intros Hn Hfit Hpen n pen.
  destruct (kernel_columns p Hn Hfit Hpen) as (st & m & _ & Hm & _ & _ & _ & Hcol).
  exists m. split; [done|]. subst n pen.
  repeat split.
  - intros i Hi. destruct (Hcol i) as [_ ->]; [lia|]. coeff_cases. done.
  - destruct (Hcol (num_of_knots_ p - 1)) as [_ ->]; [lia|]. coeff_cases. done.
  - intros i Hi. destruct (Hcol (num_of_knots_ p + i)) as [_ ->]; [lia|].
    coeff_cases. unfold penalty_at.
    by replace (Z.to_nat (Z.of_nat (num_of_knots_ p + i) - Z.of_nat (num_of_knots_ p)))
      with i by lia.
  - destruct (Hcol (2 * num_of_knots_ p - 1)) as [_ ->]; [lia|].
    coeff_cases. unfold penalty_at.
    by replace (Z.to_nat (Z.of_nat (num_of_knots_ p) - 1))
      with (num_of_knots_ p - 1) by lia.
Qed.

Lemma position_velocity_diagonal_witness :
  ∃ m, CalculateKernel knots3 csc_empty = Ok m ∧
       csc_column m 5 = [(5%Z, ((of_Z 11 + two + of_Z 17) * two)%D)].
Proof.
  destruct (position_velocity_diagonal knots3)
    as (m & Hm & _ & _ & _ & Ht);
    [cbn [knots3 num_of_knots_]; lia
    |unfold kernel_fits_int, INT_MAX; cbn [knots3 num_of_knots_]; lia
    |reflexivity |].
  exists m. exact (conj Hm Ht).
Defined.

(** ** Signs of binary64 results *)

Lemma nonneg_signed x : nonneg x ↔ signed false x.
Proof.
  unfold nonneg, leb, SFleb, zero.
  destruct x as [s|[]| |[] m e]; cbn; intuition congruence.
Qed.

Lemma nonpos_signed x : nonpos x ↔ signed true x.
Proof.
  unfold nonpos, leb, SFleb, zero.
  destruct x as [s|[]| |[] m e]; cbn; intuition congruence.
Qed.

Section Rounding.

Variables prec emax : Z.

Lemma shr_1_nonneg mrs : (0 ≤ shr_m mrs)%Z → (0 ≤ shr_m (shr_1 mrs))%Z.
Proof. destruct mrs as [[|[m|m|]|[m|m|]] r s]; cbn; lia. Qed.

Lemma iter_shr_1_nonneg k : ∀ mrs,
  (0 ≤ shr_m mrs)%Z → (0 ≤ shr_m (SpecFloat.iter_pos shr_1 k mrs))%Z.
Proof.
  induction k as [k IH|k IH|]; intros mrs Hm; cbn [SpecFloat.iter_pos].
  - by apply IH, IH, shr_1_nonneg.
  - by apply IH, IH.
  - by apply shr_1_nonneg.
Qed.

Lemma shr_fexp_nonneg m e l :
  (0 ≤ m)%Z → (0 ≤ shr_m (shr_fexp prec emax m e l).1)%Z.
Proof.
  intros Hm. unfold shr_fexp, shr.
  assert (H0 : (0 ≤ shr_m (shr_record_of_loc m l))%Z)
    by (by destruct l as [|[]]).
  destruct (_ - e)%Z; cbn [fst]; [done| |done].
  by apply iter_shr_1_nonneg.
Qed.

Lemma round_nearest_even_nonneg m l :
  (0 ≤ m)%Z → (0 ≤ round_nearest_even m l)%Z.
Proof.
  intros Hm. destruct l as [|[]]; cbn; [done| |done|lia].
  destruct (Z.even m); lia.
Qed.

Lemma binary_round_aux_signed s m e l :
  (0 ≤ m)%Z → signed s (binary_round_aux prec emax s m e l).
Proof.
  intros Hm. unfold binary_round_aux.
  pose proof (shr_fexp_nonneg m e l Hm) as H1.
  destruct (shr_fexp prec emax m e l) as [mrs' e']. cbn [fst] in H1.
  pose proof (shr_fexp_nonneg _ e' loc_Exact
                (round_nearest_even_nonneg _ (loc_of_shr_record mrs') H1)) as H2.
  destruct (shr_fexp prec emax _ e' loc_Exact) as [mrs'' e'']. cbn [fst] in H2.
  destruct (shr_m mrs'') as [|q|q]; [done| |lia].
  by destruct (_ <=? _)%Z.
Qed.

Lemma binary_round_signed s m e : signed s (binary_round prec emax s m e).
Proof.
  unfold binary_round. destruct (shl_align _ _ _) as [mz ez].
  by apply binary_round_aux_signed.
Qed.

Lemma SFadd_signed s x y :
  signed s x → signed s y → signed s (SFadd prec emax x y).
Proof.
  destruct x as [sx|sx| |sx mx ex], y as [sy|sy| |sy my ey];
    cbn [signed SFadd]; try done.
  - by destruct sx, sy.
  - intros -> ->. by destruct s.
  - intros -> ->.
    destruct s; cbn [cond_Zopp Z.opp Z.add binary_normalize];
      apply binary_round_signed.
Qed.

Lemma SFmul_signed_l sx mx ex s y :
  signed s y → signed (xorb sx s) (SFmul prec emax (S754_finite sx mx ex) y).
Proof.
  destruct y as [sy|sy| |sy my ey]; cbn [signed SFmul]; try done.
  - by intros ->.
  - intros ->. by apply binary_round_aux_signed.
Qed.

Lemma SFmul_signed_r s x sy my ey :
  signed s x → signed (xorb s sy) (SFmul prec emax x (S754_finite sy my ey)).
Proof.
  destruct x as [sx|sx| |sx mx ex]; cbn [signed SFmul]; try done.
  - by intros ->.
  - intros ->. by apply binary_round_aux_signed.
Qed.

Lemma SFdiv_core_binary_nonneg mx ex my ey :
  (0 ≤ (SFdiv_core_binary prec emax (Zpos mx) ex (Zpos my) ey).1.1)%Z.
Proof.
  unfold SFdiv_core_binary.
  set (s := (_ - _ - _)%Z).
  set (m' := match s with Zpos _ => _ | Z0 => _ | Zneg _ => _ end).
  assert (Hm' : (0 ≤ m')%Z).
  { subst m'. destruct s; [done| |done]. by apply Z.shiftl_nonneg. }
  pose proof (Z.div_pos m' (Zpos my) Hm' ltac:(done)) as Hq.
  unfold Z.div in Hq. by destruct (Z.div_eucl m' (Zpos my)) as [q r].
Qed.

Lemma SFdiv_signed s x my ey :
  signed s x → signed s (SFdiv prec emax x (S754_finite false my ey)).
Proof.
  destruct x as [sx|sx| |sx mx ex]; cbn [signed SFdiv]; try done.
  - intros ->. by rewrite xorb_false_r.
  - intros ->. rewrite xorb_false_r.
    pose proof (SFdiv_core_binary_nonneg mx ex my ey) as Hq.
    destruct (SFdiv_core_binary _ _ _ _ _ _) as [[mz ez] lz].
    by apply binary_round_aux_signed.
Qed.
End Rounding.

Lemma add_signed s x y : signed s x → signed s y → signed s (x + y)%D.
Proof. apply SFadd_signed. Qed.

Lemma mul_two_signed s x : signed s x → signed s (x * two)%D.
Proof.
  intros Hx. rewrite <- (xorb_false_r s). by apply SFmul_signed_r.
Qed.

Lemma two_mul_signed s x : signed s x → signed s (two * x)%D.
Proof. intros Hx. by apply (SFmul_signed_l prec emax false). Qed.

Lemma neg_two_mul_signed x : signed false x → signed true (neg_two * x)%D.
Proof. intros Hx. by apply (SFmul_signed_l prec emax true _ _ false). Qed.

Lemma div_signed s x y : finite_pos y → signed s x → signed s (x / y)%D.
Proof.
  destruct y as [| | |[] my ey]; try done. intros _. apply SFdiv_signed.
Qed.

Lemma negative_neg_zero : ¬ negative neg_zero.
Proof. unfold negative. by vm_compute. Qed.

(** ** The count check *)

Lemma obind_Ok {A B} (m : outcome A) (k : A → outcome B) b :
  obind m k = Ok b → ∃ a, m = Ok a ∧ k a = Ok b.
Proof. destruct m; try done. intros. by eexists. Qed.

Lemma length_concat_alter_snoc {A} (e : A) (l : list (list A)) : ∀ i,
  i < length l →
  length (concat (alter (λ c, c ++ [e]) i l)) = S (length (concat l)).
Proof.
  induction l as [|c l IH]; intros i Hi; [simpl in Hi; lia|].
  destruct i as [|i]; cbn [alter list_alter concat].
  - rewrite !length_app. simpl. lia.
  - change (list_alter (λ c, c ++ [e]) i l) with (alter (λ c, c ++ [e]) i l).
    rewrite !length_app, IH by (simpl in Hi; lia). lia.
Qed.

Lemma emplace_back_counted col row v st st' :
  emplace_back col row v st = Ok st' → counted st → counted st'.
Proof.
  unfold emplace_back, counted. destruct (in_range _ _) eqn:Hr; [|done].
  intros [= <-] Hst. cbn [columns value_index].
  apply bool_decide_eq_true in Hr.
  rewrite length_concat_alter_snoc by lia. lia.
Qed.

Lemma for_steps_invariant {S} (I : S → Prop) body count : ∀ i s s',
  (∀ i s s', body i s = Ok s' → I s → I s') →
  for_steps count i body s = Ok s' → I s → I s'.
Proof.
  induction count as [|count IH]; intros i s s' Hbody; cbn [for_steps].
  - by intros [= <-].
  - intros (s1 & H1 & H2)%obind_Ok Hs. eapply IH; eauto.
Qed.

Lemma fill_columns_counted p st : fill_columns p = Ok st → counted st.
Proof.
  unfold fill_columns, for_range. intros H.
  repeat match type of H with
         | obind _ _ = Ok _ => apply obind_Ok in H as (? & ? & H)
         end.
  assert (Hloop : ∀ count i body (s s' : kernel_state),
            (∀ i s s', body i s = Ok s' → counted s → counted s') →
            for_steps count i body s = Ok s' → counted s → counted s')
    by (intros; by eapply (for_steps_invariant counted)).
  assert (Hinit : ∀ len, counted {| columns := replicate len []; value_index := 0 |}).
  { intros len. unfold counted. cbn [columns value_index].
    induction len; [done|]. by rewrite replicate_S. }
  repeat match goal with
         | H : emplace_back _ _ _ _ = Ok ?s |- counted ?s =>
             eapply emplace_back_counted; [exact H|]
         | H : for_steps _ _ _ _ = Ok ?s |- counted ?s =>
             eapply Hloop; [|exact H|];
             [intros ? ? ? Hb Hc; cbn beta in Hb;
              try apply obind_Ok in Hb as (? & ? & Hb);
              exact (emplace_back_counted _ _ _ _ _ Hb Hc)|]
         | |- counted {| columns := replicate _ _; value_index := _ |} => apply Hinit
         end.
Qed.

(** ** Shape of the assembled matrix *)

Lemma assemble_lengths cols :
  length (P_data (assemble cols)) = length (concat cols) ∧
  length (P_indices (assemble cols)) = length (concat cols) ∧
  length (P_indptr (assemble cols)) = S (length cols).
Proof.
  unfold assemble. cbn [P_data P_indices P_indptr].
  rewrite !length_fmap, length_app. repeat split.
  assert (Hoff : ∀ (l : list column) start, length (offsets start l) = length l).
  { induction l as [|c l IH]; intros start; [done|]. simpl. by rewrite IH. }
  rewrite Hoff. simpl. lia.
Qed.

Lemma assemble_indptr cols :
  P_indptr (assemble cols) !! 0 = Some 0%Z ∧
  non_decreasing (P_indptr (assemble cols)) ∧
  P_indptr (assemble cols) !! length cols =
    Some (Z.of_nat (length (concat cols))).
Proof.
  unfold assemble. cbn [P_indptr]. split; [|split].
  - by rewrite (lookup_offsets cols 0 0) by lia.
  - intros i a b Ha Hb.
    assert (Hi : S i ≤ length cols).
    { apply lookup_lt_Some in Hb. destruct (assemble_lengths cols) as (_ & _ & Hl).
      unfold assemble in Hl. cbn [P_indptr] in Hl. lia. }
    rewrite (lookup_offsets cols 0 i) in Ha by lia.
    rewrite (lookup_offsets cols 0 (S i)) in Hb by lia.
    injection Ha as <-. injection Hb as <-.
    destruct (lookup_lt_is_Some_2 cols i ltac:(lia)) as [col Hcol].
    rewrite (take_S_r _ _ _ Hcol), concat_app, length_app. lia.
  - rewrite (lookup_offsets cols 0 (length cols)) by lia.
    by rewrite firstn_all.
Qed.

Lemma assemble_column_order cols :
  zip (P_indices (assemble cols)) (P_data (assemble cols)) =
  concat (csc_column (assemble cols) <$> seq 0 (length cols)).
Proof.
  unfold assemble at 1 2. cbn [P_data P_indices].
  rewrite zip_fst_doubled.
  assert (Hcols : csc_column (assemble cols) <$> seq 0 (length cols) =
                  fmap doubled <$> cols).
  { apply list_eq; intros i. rewrite !list_lookup_fmap.
    destruct (cols !! i) as [col|] eqn:Hi.
    - rewrite lookup_seq_lt by (by eapply lookup_lt_Some). simpl.
      by rewrite (csc_column_assemble _ _ _ Hi).
    - rewrite lookup_seq_ge; [done|]. by apply lookup_ge_None. }
  rewrite Hcols. clear Hcols.
  induction cols as [|c cols IH]; [done|].
  cbn [concat]. rewrite fmap_app, fmap_cons. cbn [concat]. by rewrite IH.
Qed.

(** ** Signs of the stored coefficients *)

Lemma penalty_at_signed p i :
  Forall nonneg (penalty_dx_ p) → signed false (penalty_at p i).
Proof.
  intros Hall. unfold penalty_at. rewrite nth_lookup.
  destruct (penalty_dx_ p !! Z.to_nat i) as [x|] eqn:Hx; [|done].
  apply nonneg_signed. by eapply (proj1 (Forall_lookup _ _) Hall).
Qed.

Lemma diag_coeff_signed p k :
  weights_nonneg p → finite_pos (delta_s_square p) →
  signed false (diag_coeff p k).
Proof.
  intros (Hx & Hdx & Hddx & Hdddx & He0 & He1 & He2 & Hpen) Hds.
  apply nonneg_signed in Hx, Hdx, Hddx, Hdddx, He0, He1, He2.
  pose proof (penalty_at_signed p) as Hp.
  unfold diag_coeff.
  repeat case_bool_decide;
    repeat first [ done | by apply Hp | apply add_signed
                 | apply div_signed | apply two_mul_signed ].
Qed.

Lemma cross_coeff_signed p :
  weights_nonneg p → finite_pos (delta_s_square p) →
  signed true (cross_coeff p).
Proof.
  intros (_ & _ & _ & Hdddx & _) Hds. apply nonneg_signed in Hdddx.
  unfold cross_coeff. apply div_signed; [done|]. by apply neg_two_mul_signed.
Qed.

Lemma stored_column_entry p (c : nat) r v :
  (r, v) ∈ doubled <$> stored_column p (Z.of_nat c) →
  (r = Z.of_nat c ∧ v = (diag_coeff p (Z.of_nat c) * two)%D) ∨
  (r = Z.of_nat (S c) ∧ v = (cross_coeff p * two)%D ∧
   2 * num_of_knots_ p ≤ c < 3 * num_of_knots_ p - 1).
Proof.
  unfold stored_column. rewrite fmap_cons, elem_of_cons.
  intros [[= -> ->]|Hin]; [by left|right].
  case_bool_decide as Hc; [|by apply elem_of_nil in Hin].
  apply list_elem_of_singleton in Hin as [= -> ->].
  repeat split; lia.
Qed.

(** C3, as the code has it. With two knots or more, a knot count whose
    [4 * n] fits an [int], [CalculateKernel] passes its count check and
    returns; it emits [4n - 1] values and as many
    row indices: in every column [c < 3n] first the diagonal entry (row
    [c]) and, for the [n - 1] columns [2n <= c < 3n - 1], after it the
    cross entry at row [c + 1]; so every row index lies in [[c, 3n)], the
    columns follow one another in increasing order in the emitted sequence
    and rows increase within a column.  The column offsets are [3n + 1]
    numbers, the first [0], never decreasing, the last [4n - 1].  When every
    weight and penalty is [>= 0] and the computed [delta_s * delta_s] is a
    positive finite number, every diagonal value is [>= 0] and every
    off-diagonal value is [<= 0] (not always negative: it is a zero when
    [weight_dddx] is zero). *)
Theorem kernel_shape_and_signs p :
  2 ≤ num_of_knots_ p → kernel_fits_int p →
  length (penalty_dx_ p) = num_of_knots_ p →
  let n := num_of_knots_ p in
  ∃ st m,
    fill_columns p = Ok st ∧
    value_index st = (4 * Z.of_nat n - 1)%Z ∧
    CalculateKernel p csc_empty = Ok m ∧
    Z.of_nat (length (P_data m)) = (4 * Z.of_nat n - 1)%Z ∧
    Z.of_nat (length (P_indices m)) = (4 * Z.of_nat n - 1)%Z ∧
    (∀ c : nat, c < 3 * n →
       ∃ d x, csc_column m c =
              (Z.of_nat c, d) ::
              (if bool_decide (2 * n ≤ c < 3 * n - 1) then [(Z.of_nat (S c), x)]
               else [])) ∧
    (∀ (c : nat) r v, c < 3 * n → (r, v) ∈ csc_column m c →
       (Z.of_nat c ≤ r < 3 * Z.of_nat n)%Z) ∧
    zip (P_indices m) (P_data m) = concat (csc_column m <$> seq 0 (3 * n)) ∧
    length (P_indptr m) = 3 * n + 1 ∧
    P_indptr m !! 0 = Some 0%Z ∧
    non_decreasing (P_indptr m) ∧
    P_indptr m !! (3 * n) = Some (4 * Z.of_nat n - 1)%Z ∧
    (weights_nonneg p → finite_pos (delta_s_square p) →
     ∀ (c : nat) r v, c < 3 * n → (r, v) ∈ csc_column m c →
       (r = Z.of_nat c → nonneg v) ∧ (r ≠ Z.of_nat c → nonpos v)).
Proof.
  intros Hn Hfit Hpen n.
  destruct (kernel_columns p Hn Hfit Hpen)
    as (st & m & Hst & Hm & Hvi & Hasm & Hlen & Hcol).
  pose proof (fill_columns_counted p st Hst) as Hcnt. unfold counted in Hcnt.
  destruct (assemble_lengths (columns st)) as (Hd & Hi & Hp).
  destruct (assemble_indptr (columns st)) as (Hp0 & Hmono & Hlast).
  pose proof (assemble_column_order (columns st)) as Hord.
  rewrite <- Hasm in Hd, Hi, Hp, Hp0, Hmono, Hlast, Hord.
  rewrite Hlen in Hp, Hlast, Hord. fold n in Hvi, Hp, Hlast, Hord, Hcol.
  exists st, m. split; [done|]. split; [done|]. split; [done|].
  split; [lia|]. split; [lia|].
  split.
  { intros c Hc. destruct (Hcol c Hc) as [_ ->]. unfold stored_column.
    fold n. exists (diag_coeff p (Z.of_nat c) * two)%D, (cross_coeff p * two)%D.
    rewrite fmap_cons. f_equal.
    repeat case_bool_decide; try lia; [|done].
    by rewrite Nat2Z.inj_succ. }
  split.
  { intros c r v Hc Hin. destruct (Hcol c Hc) as [_ Heq]. rewrite Heq in Hin.
    apply stored_column_entry in Hin as [[-> _]|(-> & _ & Hr)]; subst n; lia. }
  split; [done|]. split; [lia|]. split; [done|]. split; [done|].
  split; [rewrite Hlast; f_equal; lia|].
  intros Hw Hds c r v Hc Hin. destruct (Hcol c Hc) as [_ Heq]. rewrite Heq in Hin.
  apply stored_column_entry in Hin as [[-> ->]|(-> & -> & Hr)].
  - split; [intros _|done]. apply nonneg_signed, mul_two_signed.
    by apply diag_coeff_signed.
  - split; [lia|intros _]. apply nonpos_signed, mul_two_signed.
    by apply cross_coeff_signed.
Qed.

Lemma kernel_shape_and_signs_witness :
  ∃ m, CalculateKernel knots3 csc_empty = Ok m ∧
       Z.of_nat (length (P_data m)) = 11%Z ∧
       P_indptr m !! 9 = Some 11%Z ∧
       ∀ (c : nat) r v, c < 9 → (r, v) ∈ csc_column m c →
         (r = Z.of_nat c → nonneg v) ∧ (r ≠ Z.of_nat c → nonpos v).
Proof.
  destruct (kernel_shape_and_signs knots3)
    as (st & m & _ & _ & Hm & Hd & _ & _ & _ & _ & _ & _ & _ & Hl & Hsign);
    [cbn [knots3 num_of_knots_]; lia
    |unfold kernel_fits_int, INT_MAX; cbn [knots3 num_of_knots_]; lia
    |reflexivity |].
  exists m. split; [exact Hm|]. split; [exact Hd|]. split; [exact Hl|].
  apply Hsign.
  - unfold weights_nonneg, nonneg. repeat split; try (vm_compute; reflexivity).
    repeat constructor; vm_compute; reflexivity.
  - vm_compute. exact I.
Defined.

(** C3 as stated fails: with every weight zero (so none is negative), two
    knots and [delta_s = 1.0], the off-diagonal value emitted in column 4
    at row 5 is [-0.0], which is not negative. *)
Lemma zero_weights_cross_value_not_negative :
  weights_nonneg (scenario zero [] false false zero) ∧
  ∃ m, CalculateKernel (scenario zero [] false false zero) csc_empty = Ok m ∧
       csc_column m 4 = [(4%Z, zero); (5%Z, neg_zero)] ∧
       ¬ negative neg_zero.
Proof.
  split.
  - unfold weights_nonneg, nonneg. cbn. repeat split.
    repeat constructor.
  - eexists. split; [by vm_compute|]. split; [by vm_compute|].
    apply negative_neg_zero.
Qed.

(** ** The loop of CalculateOffset *)

Lemma at_add_tabulate f len j d :
  (0 ≤ j < Z.of_nat len)%Z →
  at_add (tabulate f len) j d =
  Ok (tabulate (λ k, accumulate (bool_decide (k = j)) (f k) d) len).
Proof.
  intros Hj. unfold at_add.
  rewrite in_range_true by (rewrite length_tabulate; lia).
  by rewrite (alter_tabulate (λ x, (x + d)%D)) by done.
Qed.

Lemma offset_steps p len count : ∀ lo f,
  (has_x_ref_ p = true → length (x_ref_ p) = num_of_knots_ p) →
  (0 ≤ lo)%Z → (lo + Z.of_nat count ≤ Z.of_nat (num_of_knots_ p))%Z →
  (2 * Z.of_nat (num_of_knots_ p) ≤ Z.of_nat len)%Z →
  for_steps count lo (λ i q,
    do q <- (if has_x_ref_ p then
               do x <- vec_get (x_ref_ p) i;
               at_add q i (neg_two * weight_x_ref_ p * x)%D
             else Ok q);
    if has_dx_ref_ p then
      at_add q (Z.of_nat (num_of_knots_ p) + i)
        (neg_two * weight_dx_ref_ p * dx_ref_ p)%D
    else Ok q) (tabulate f len) =
  Ok (tabulate (after_knots p lo (lo + Z.of_nat count) f) len).
Proof.
  induction count as [|count IH]; intros lo f Hx Hlo Hhi Hlen.
  - cbn [for_steps]. f_equal. apply tabulate_ext; intros k Hk.
    unfold after_knots. by rewrite !bool_decide_false by lia.
  - cbn [for_steps].
    assert (Hstep : ∀ q' : list c_float,
              (if has_x_ref_ p then
                 do x <- vec_get (x_ref_ p) lo;
                 at_add q' lo (neg_two * weight_x_ref_ p * x)%D
               else Ok q') =
              (if has_x_ref_ p then at_add q' lo (x_term p lo) else Ok q')).
    { intros q'. destruct (has_x_ref_ p) eqn:Hhas; [|done].
      rewrite vec_get_nth by (rewrite Hx by done; lia). done. }
    rewrite Hstep. clear Hstep.
    set (n := Z.of_nat (num_of_knots_ p)) in *.
    assert (H1 : (if has_x_ref_ p then at_add (tabulate f len) lo (x_term p lo)
                  else Ok (tabulate f len)) =
                 Ok (tabulate (λ k, accumulate (has_x_ref_ p && bool_decide (k = lo))
                                     (f k) (x_term p lo)) len)).
    { destruct (has_x_ref_ p); [by rewrite at_add_tabulate by lia|done]. }
    rewrite H1. clear H1. cbn [obind].
    set (f1 := λ k, accumulate _ (f k) _).
    assert (H2 : (if has_dx_ref_ p then at_add (tabulate f1 len) (n + lo) (dx_term p)
                  else Ok (tabulate f1 len)) =
                 Ok (tabulate (λ k, accumulate
                                     (has_dx_ref_ p && bool_decide (k = n + lo)%Z)
                                     (f1 k) (dx_term p)) len)).
    { destruct (has_dx_ref_ p); [by rewrite at_add_tabulate by lia|done]. }
    unfold dx_term in H2. rewrite H2. clear H2. cbn [obind].
    rewrite IH by (try done; lia). f_equal.
    apply tabulate_ext; intros k Hk. unfold after_knots, f1, dx_term. fold n.
    destruct (has_x_ref_ p), (has_dx_ref_ p); cbn [andb accumulate];
      repeat case_bool_decide; try lia; subst; try done.
Qed.

(** With one knot or more, the vector returned on a fresh [q]. *)
Lemma CalculateOffset_closed p :
  1 ≤ num_of_knots_ p → offset_fits_int p →
  (has_x_ref_ p = true → length (x_ref_ p) = num_of_knots_ p) →
  CalculateOffset p [] = Ok (tabulate (q_entry p) (3 * num_of_knots_ p)).
Proof.
  intros Hn Hfit Hx. unfold CalculateOffset, for_range.
  destruct (offset_sizes p Hfit) as (-> & -> & Hsize). cbn [obind].
  rewrite Hsize. cbn [obind]. clear Hsize.
  set (n := Z.of_nat (num_of_knots_ p)).
  rewrite resize_nil, replicate_tabulate.
  rewrite (offset_steps p) by (try done; lia). cbn [obind].
  replace (0 + Z.of_nat (Z.to_nat (n - 0)))%Z with n by lia.
  destruct (has_end_state_ref_ p) eqn:He.
  - rewrite at_add_tabulate by lia. cbn [obind].
    rewrite at_add_tabulate by lia. cbn [obind].
    rewrite at_add_tabulate by lia.
    f_equal. apply tabulate_ext; intros k Hk.
    unfold q_entry. rewrite He. done.
  - f_equal. apply tabulate_ext; intros k Hk.
    unfold q_entry. rewrite He. done.
Qed.

(** Adding to [0.0] gives a number that compares equal to the addend. *)
Lemma zero_add_eqb x : x ≠ S754_nan → eqb (zero + x)%D x = true.
Proof.
  unfold eqb, SFeqb, add, zero.
  destruct x as [[]|[]| |[] m e]; try done; intros _; cbn [SFadd SFcompare];
    rewrite Z.compare_refl; by rewrite ?Pos.compare_cont_refl.
Qed.

(** C4. With one knot or more, [CalculateOffset] on a fresh vector
    returns [q] of length [3n]; every entry starts from [0.0]; for every
    knot [i < n]: [q[i]] has had [-2 * weight_x_ref * x_ref[i]] added if the
    position reference is active, [q[n+i]] has had
    [-2 * weight_dx_ref * dx_ref] added if the velocity reference is active;
    and, if the end-state reference is active, the three end-state terms
    were added after that to [q[n-1]], [q[2n-1]], [q[3n-1]], on top of what
    these entries held.  An entry with no contribution is [0.0].  The
    knot count is one whose [3 * n] fits an [int]. *)
Theorem linear_term_entries p :
  1 ≤ num_of_knots_ p → offset_fits_int p →
  (has_x_ref_ p = true → length (x_ref_ p) = num_of_knots_ p) →
  let n := num_of_knots_ p in
  let last (i : nat) := has_end_state_ref_ p && bool_decide (i = n - 1) in
  let we := weight_end_state_ p in
  let er := end_state_ref_ p in
  ∃ q : list c_float,
    CalculateOffset p [] = Ok q ∧
    length q = 3 * n ∧
    ∀ i : nat, i < n →
      q !! i =
        Some (accumulate (last i)
                (accumulate (has_x_ref_ p) zero
                   (neg_two * weight_x_ref_ p * nth i (x_ref_ p) zero)%D)
                (neg_two * arr0 we * arr0 er)%D) ∧
      q !! (n + i) =
        Some (accumulate (last i)
                (accumulate (has_dx_ref_ p) zero
                   (neg_two * weight_dx_ref_ p * dx_ref_ p)%D)
                (neg_two * arr1 we * arr1 er)%D) ∧
      q !! (2 * n + i) =
        Some (accumulate (last i) zero (neg_two * arr2 we * arr2 er)%D).
Proof.
  intros Hn Hfit Hx n last we er.
  exists (tabulate (q_entry p) (3 * n)).
  split; [by apply CalculateOffset_closed|].
  split; [by apply length_tabulate|].
  intros i Hi. subst n last we er.
  rewrite !lookup_tabulate by lia.
  unfold q_entry, after_knots, x_term, dx_term, end_term0, end_term1, end_term2,
    x_ref_at.
  rewrite Nat2Z.id.
  repeat split; f_equal;
    destruct (has_end_state_ref_ p), (has_x_ref_ p), (has_dx_ref_ p);
    cbn [andb accumulate];
    repeat (case_bool_decide; try lia); reflexivity.
Qed.

Lemma linear_term_entries_witness :
  ∃ q : list c_float,
    CalculateOffset knots3 [] = Ok q ∧
    q !! 2 = Some (zero + neg_two * of_Z 7 * four + neg_two * of_Z 13 * four)%D.
Proof.
  destruct (linear_term_entries knots3) as (q & Hq & _ & Hi);
    [cbn [knots3 num_of_knots_]; lia
    |unfold offset_fits_int, INT_MAX; cbn [knots3 num_of_knots_]; lia
    |reflexivity |].
  exists q. split; [exact Hq|].
  exact (proj1 (Hi 2 ltac:(cbn [knots3 num_of_knots_]; lia))).
Defined.

(** C5. What is stored for a reference whose presence flag is false does
    not reach [q]: replacing the stored weight and target of the position
    reference, of the velocity reference or of the end-state reference
    leaves the outcome of [CalculateOffset] the same, whatever the vector
    it is called on. *)
Theorem absent_reference_contributes_nothing p q0 :
  (has_x_ref_ p = false →
   ∀ w x, CalculateOffset (with_x_ref_data w x p) q0 = CalculateOffset p q0) ∧
  (has_dx_ref_ p = false →
   ∀ w d, CalculateOffset (with_dx_ref_data w d p) q0 = CalculateOffset p q0) ∧
  (has_end_state_ref_ p = false →
   ∀ w r, CalculateOffset (with_end_state_data w r p) q0 = CalculateOffset p q0).
Proof.
  repeat split; intros Hflag *; unfold CalculateOffset;
    cbn [with_x_ref_data with_dx_ref_data with_end_state_data
         num_of_knots_ has_x_ref_ has_dx_ref_ has_end_state_ref_
         weight_x_ref_ x_ref_ weight_dx_ref_ dx_ref_
         weight_end_state_ end_state_ref_];
    rewrite Hflag; reflexivity.
Qed.

Lemma absent_reference_contributes_nothing_witness :
  CalculateOffset
    (with_x_ref_data four [one; one] (scenario one [one; two] false true half)) [] =
  CalculateOffset (scenario one [one; two] false true half) [] ∧
  CalculateOffset
    (with_dx_ref_data four one (scenario one [one; two] true false half)) [] =
  CalculateOffset (scenario one [one; two] true false half) [] ∧
  CalculateOffset
    (with_end_state_data (one, two, four) (four, two, one)
       (scenario one [one; two] true true half)) [] =
  CalculateOffset (scenario one [one; two] true true half) [].
Proof.
  split; [|split].
  - exact (proj1 (absent_reference_contributes_nothing
                    (scenario one [one; two] false true half) [])
             eq_refl four [one; one]).
  - exact (proj1 (proj2 (absent_reference_contributes_nothing
                           (scenario one [one; two] true false half) []))
             eq_refl four one).
  - exact (proj2 (proj2 (absent_reference_contributes_nothing
                           (scenario one [one; two] true true half) []))
             eq_refl (one, two, four) (four, two, one)).
Defined.

(** C6. [set_x_ref] fails its check exactly when the length of [x_ref]
    differs from the knot count; otherwise it returns the object with the
    weight and the vector stored and the position reference marked active,
    every other field as it was.  [set_penalty_dx] fails its check exactly
    when the length of [penalty_dx] differs from the knot count; otherwise
    it returns the object with the penalty vector replaced, every other
    field as it was. *)
Theorem checked_setters w x pen p :
  (set_x_ref w x p = CheckFailed ↔ length x ≠ num_of_knots_ p) ∧
  (length x = num_of_knots_ p →
   ∃ p', set_x_ref w x p = Ok p' ∧
         weight_x_ref_ p' = w ∧ x_ref_ p' = x ∧ has_x_ref_ p' = true ∧
         unchanged_but_x_ref p p') ∧
  (set_penalty_dx pen p = CheckFailed ↔ length pen ≠ num_of_knots_ p) ∧
  (length pen = num_of_knots_ p →
   ∃ p', set_penalty_dx pen p = Ok p' ∧
         penalty_dx_ p' = pen ∧ unchanged_but_penalty_dx p p').
Proof.
  unfold set_x_ref, set_penalty_dx. repeat split.
  - by case_bool_decide.
  - intros Hne. by rewrite bool_decide_false.
  - intros Heq. rewrite bool_decide_true by done. eexists. split; [done|].
    by repeat split.
  - by case_bool_decide.
  - intros Hne. by rewrite bool_decide_false.
  - intros Heq. rewrite bool_decide_true by done. eexists. split; [done|].
    by repeat split.
Qed.

Lemma checked_setters_witness :
  (∃ p', set_x_ref four [one; two; one] knots3 = Ok p' ∧
         weight_x_ref_ p' = four ∧ x_ref_ p' = [one; two; one]) ∧
  (∃ p', set_penalty_dx [two; two; two] knots3 = Ok p' ∧
         penalty_dx_ p' = [two; two; two]) ∧
  set_x_ref four [one; two] knots3 = CheckFailed ∧
  set_penalty_dx [] knots3 = CheckFailed.
Proof.
  destruct (checked_setters four [one; two; one] [two; two; two] knots3)
    as (_ & Hx & _ & Hp).
  destruct (Hx eq_refl) as (px & Hpx & Hw & Hv & _).
  destruct (Hp eq_refl) as (pp & Hpp & Hpen & _).
  split; [exists px; exact (conj Hpx (conj Hw Hv))|].
  split; [exists pp; exact (conj Hpp Hpen)|].
  split.
  - apply (proj1 (checked_setters four [one; two] [] knots3)).
    cbn [knots3 num_of_knots_ length]. lia.
  - apply (proj1 (proj2 (proj2 (checked_setters four [one; two] [] knots3)))).
    cbn [knots3 num_of_knots_ length]. lia.
Defined.

(** ** The sparsity pattern *)

Lemma assemble_pattern (cols : list column) : ∀ cols' : list column,
  rows <$> cols = rows <$> cols' →
  P_indices (assemble cols) = P_indices (assemble cols') ∧
  P_indptr (assemble cols) = P_indptr (assemble cols').
Proof.
  intros cols' Heq. unfold assemble. cbn [P_indices P_indptr].
  assert (Hrows : ∀ l : list column, fst <$> concat l = concat (rows <$> l)).
  { induction l as [|c l IH]; [done|]. cbn [concat]. rewrite fmap_app, fmap_cons.
    cbn [concat]. by rewrite IH. }
  assert (Hlen : length (concat cols) = length (concat cols')).
  { rewrite <- (length_fmap fst (concat cols)), <- (length_fmap fst (concat cols')).
    by rewrite !Hrows, Heq. }
  split; [by rewrite !Hrows, Heq|]. rewrite Hlen. f_equal. clear Hlen.
  generalize 0%Z. revert cols' Heq.
  induction cols as [|c cols IH]; intros [|c' cols'] Heq start; try done.
  rewrite !fmap_cons in Heq. injection Heq as Hc Hcols.
  cbn [offsets]. unfold rows in Hc.
  rewrite <- (length_fmap fst c), Hc, length_fmap.
  f_equal. by apply IH.
Qed.

Lemma sparsity_pattern p p' m m' :
  2 ≤ num_of_knots_ p → kernel_fits_int p →
  num_of_knots_ p' = num_of_knots_ p →
  length (penalty_dx_ p) = num_of_knots_ p →
  length (penalty_dx_ p') = num_of_knots_ p' →
  CalculateKernel p csc_empty = Ok m → CalculateKernel p' csc_empty = Ok m' →
  P_indices m = P_indices m' ∧ P_indptr m = P_indptr m'.
Proof.
  intros Hn Hfit Hnn Hpen Hpen'.
  assert (Hfit' : kernel_fits_int p')
    by (unfold kernel_fits_int in *; by rewrite Hnn).
  rewrite !CalculateKernel_closed by (done || lia).
  intros [= <-] [= <-]. apply assemble_pattern. rewrite Hnn. unfold tabulate.
  rewrite <- !list_fmap_compose. apply list_fmap_ext. intros _ k _.
  unfold compose, rows, stored_column. rewrite Hnn. by case_bool_decide.
Qed.

(** C7. The scenario with two knots, [delta_s = 1.0], every weight [1.0],
    no penalty, [x_ref = [1, 2]] and [dx_ref = 0.5] active and no end-state
    reference: the three vectors of [P], the columns read back from them,
    and [q]. *)
Theorem unit_weights_scenario :
  let p := scenario one [one; two] true true half in
  let m := {| P_data := [two; two; two; two; four; of_Z (-4); four];
              P_indices := [0; 1; 2; 3; 4; 5; 5]%Z;
              P_indptr := [0; 1; 2; 3; 4; 6; 7]%Z |} in
  CalculateKernel p csc_empty = Ok m ∧
  csc_column m 0 = [(0%Z, two)] ∧
  csc_column m 1 = [(1%Z, two)] ∧
  csc_column m 2 = [(2%Z, two)] ∧
  csc_column m 3 = [(3%Z, two)] ∧
  csc_column m 4 = [(4%Z, four); (5%Z, of_Z (-4))] ∧
  csc_column m 5 = [(5%Z, four)] ∧
  CalculateOffset p [] =
    Ok [of_Z (-2); of_Z (-4); of_Z (-1); of_Z (-1); zero; zero].
Proof. repeat split; by vm_compute. Qed.

(** C8, as the code has it. Two knots, every weight zero, the penalties
    at their default, no reference active, and [delta_s] with a positive
    finite square: the
    kernel still passes its check and emits seven values, each comparing
    equal to [0.0] (the cross value is the zero of negative sign), with the
    row indices and column offsets of the scenario above; [q] is all
    zeros.  The row indices and the column offsets are those of every
    other problem of two knots, whatever its weights. *)
Theorem zero_weights_scenario ds xr dxr er :
  finite_pos (ds * ds)%D →
  let p := zero_weights ds xr dxr er in
  ∃ m,
    CalculateKernel p csc_empty = Ok m ∧
    P_data m = [zero; zero; zero; zero; zero; neg_zero; zero] ∧
    length (P_data m) = 7 ∧
    Forall (λ v, eqb v zero = true) (P_data m) ∧
    P_indices m = [0; 1; 2; 3; 4; 5; 5]%Z ∧
    P_indptr m = [0; 1; 2; 3; 4; 6; 7]%Z ∧
    CalculateOffset p [] = Ok [zero; zero; zero; zero; zero; zero] ∧
    ∀ p' m',
      num_of_knots_ p' = 2 → length (penalty_dx_ p') = 2 →
      CalculateKernel p' csc_empty = Ok m' →
      P_indices m' = P_indices m ∧ P_indptr m' = P_indptr m.
Proof.
  intros Hds p.
  assert (Hfit : kernel_fits_int p) by (by vm_compute).
  assert (Hm : CalculateKernel p csc_empty =
               Ok (assemble (tabulate (stored_column p) 6)))
    by (by apply CalculateKernel_closed).
  assert (Hdata : P_data (assemble (tabulate (stored_column p) 6)) =
                  [zero; zero; zero; zero; zero; neg_zero; zero]).
  { revert Hds. subst p. cbv -[add mul div].
    by destruct (mul ds ds) as [| | |[] m e]. }
  eexists. split; [exact Hm|].
  split; [exact Hdata|]. rewrite Hdata.
  split; [done|].
  split; [by repeat constructor|].
  split; [by vm_compute|]. split; [by vm_compute|].
  split; [by vm_compute|].
  intros p' m' Hn' Hpen' Hm'.
  assert (Hfit' : kernel_fits_int p')
    by (unfold kernel_fits_int; rewrite Hn'; by vm_compute).
  assert (Hpat := sparsity_pattern p' p m' _ ltac:(lia) Hfit' (eq_sym Hn')
                    ltac:(lia) eq_refl Hm' Hm).
  destruct Hpat as [-> ->]. done.
Qed.

Lemma zero_weights_scenario_witness :
  ∃ m, CalculateKernel (zero_weights one [] zero (zero, zero, zero)) csc_empty = Ok m ∧
       length (P_data m) = 7 ∧
       Forall (λ v, eqb v zero = true) (P_data m).
Proof.
  destruct (zero_weights_scenario one [] zero (zero, zero, zero))
    as (m & Hm & _ & Hl & Hz & _); [exact I|].
  exists m. exact (conj Hm (conj Hl Hz)).
Defined.

(** C8 as stated, for every [delta_s > 0], fails: for [delta_s = 2^-600]
    the square underflows to zero, [0.0 / 0.0] is not a number, and the three
    acceleration diagonals emitted are not [0.0]. *)
Lemma zero_weights_tiny_spacing_not_all_zero :
  ltb zero (of_dyadic 1 (-600)) = true ∧
  ∃ m, CalculateKernel
         (zero_weights (of_dyadic 1 (-600)) [] zero (zero, zero, zero))
         csc_empty = Ok m ∧
       P_data m = [zero; zero; zero; zero; S754_nan; S754_nan; S754_nan] ∧
       ¬ Forall (λ v, eqb v zero = true) (P_data m).
Proof.
  split; [by vm_compute|].
  eexists. split; [by vm_compute|]. split; [by vm_compute|].
  intros Hall. apply Forall_lookup with (i := 4) (x := S754_nan) in Hall;
    [|by vm_compute].
  by vm_compute in Hall.
Qed.

(** C9. With a single knot both the first-knot and the terminal
    acceleration terms go into column 2, as two diagonal entries; four
    entries are counted where the check expects [4 * 1 - 1 = 3], so the
    check fails, and [CalculateKernel] returns for no single-knot
    problem. *)
Theorem single_knot_fails_count_check p :
  num_of_knots_ p = 1 →
  (∀ out, ¬ returns (CalculateKernel p out)) ∧
  (length (penalty_dx_ p) = 1 →
   let jerk := (weight_dddx_ p / delta_s_square p)%D in
   ∃ st,
     fill_columns p = Ok st ∧
     length (columns st) = 3 ∧
     columns st !! 2 =
       Some [(2%Z, (weight_ddx_ p + jerk)%D);
             (2%Z, (weight_ddx_ p + jerk + arr2 (weight_end_state_ p))%D)] ∧
     value_index st = 4%Z ∧
     (4 * Z.of_nat (num_of_knots_ p) - 1)%Z = 3%Z ∧
     ∀ out, CalculateKernel p out = CheckFailed).
Proof.
  intros Hn. split.
  - intros out [m Hm]. revert Hm. unfold CalculateKernel, fill_columns.
    rewrite Hn. destruct (penalty_dx_ p) as [|pen rest]; by cbv -[add mul div].
  - intros Hpen jerk. subst jerk. unfold CalculateKernel, fill_columns, delta_s_square.
    rewrite Hn. destruct (penalty_dx_ p) as [|pen [|]]; try done.
    eexists. split; [by cbv -[add mul div]|]. by cbv -[add mul div].
Qed.

Lemma single_knot_fails_count_check_witness :
  CalculateKernel (with_one_knot knots3) csc_empty = CheckFailed.
Proof.
  destruct (single_knot_fails_count_check (with_one_knot knots3) eq_refl)
    as [_ Hst].
  destruct (Hst eq_refl) as (st & _ & _ & _ & _ & _ & Hfail).
  exact (Hfail csc_empty).
Defined.

(** C10. [CalculateKernel] reads no presence flag: whatever the three
    flags are set to, its outcome is the same.  In particular, with the
    end-state flag false (and two knots or more, a knot count whose
    [4 * n] fits an [int]), the terminal diagonal entries at [n - 1],
    [2n - 1] and [3n - 1] still carry [weight_end_state[0]], [[1]] and
    [[2]].  The flags do change [q]: clearing them on a problem with all
    references set changes the vector returned by [CalculateOffset]. *)
Theorem kernel_ignores_presence_flags p has_x has_dx has_end :
  (∀ out, CalculateKernel (with_flags has_x has_dx has_end p) out =
          CalculateKernel p out) ∧
  (2 ≤ num_of_knots_ p → kernel_fits_int p →
   length (penalty_dx_ p) = num_of_knots_ p →
   let n := num_of_knots_ p in
   ∃ m,
     CalculateKernel (with_flags has_x has_dx false p) csc_empty = Ok m ∧
     csc_column m (n - 1) =
       [(Z.of_nat (n - 1),
         ((weight_x_ref_ p + arr0 (weight_end_state_ p)) * two)%D)] ∧
     csc_column m (2 * n - 1) =
       [(Z.of_nat (2 * n - 1),
         ((weight_dx_ref_ p + nth (n - 1) (penalty_dx_ p) zero
           + arr1 (weight_end_state_ p)) * two)%D)] ∧
     csc_column m (3 * n - 1) =
       [(Z.of_nat (3 * n - 1),
         ((weight_ddx_ p + weight_dddx_ p / delta_s_square p
           + arr2 (weight_end_state_ p)) * two)%D)]) ∧
  CalculateOffset (with_flags false false false knots3) [] ≠
  CalculateOffset knots3 [].
Proof.
  assert (Hsame : ∀ hx hdx he out,
            CalculateKernel (with_flags hx hdx he p) out = CalculateKernel p out)
    by reflexivity.
  split; [apply Hsame|]. split; [|by vm_compute].
  intros Hn Hfit Hpen n. rewrite Hsame.
  destruct (kernel_columns p Hn Hfit Hpen) as (st & m & _ & Hm & _ & _ & _ & Hcol).
  exists m. split; [done|]. subst n.
  repeat split.
  - destruct (Hcol (num_of_knots_ p - 1)) as [_ ->]; [lia|]. coeff_cases. done.
  - destruct (Hcol (2 * num_of_knots_ p - 1)) as [_ ->]; [lia|].
    coeff_cases. unfold penalty_at.
    by replace (Z.to_nat (Z.of_nat (num_of_knots_ p) - 1))
      with (num_of_knots_ p - 1) by lia.
  - destruct (Hcol (3 * num_of_knots_ p - 1)) as [_ ->]; [lia|].
    coeff_cases. done.
Qed.

Lemma kernel_ignores_presence_flags_witness :
  ∃ m, CalculateKernel (with_flags true true false knots3) csc_empty = Ok m ∧
       csc_column m 2 = [(2%Z, ((of_Z 7 + of_Z 13) * two)%D)].
Proof.
  destruct (kernel_ignores_presence_flags knots3 true true false) as (_ & Hterm & _).
  destruct Hterm as (m & Hm & H0 & _);
    [cbn [knots3 num_of_knots_]; lia
    |unfold kernel_fits_int, INT_MAX; cbn [knots3 num_of_knots_]; lia
    |reflexivity |].
  exists m. exact (conj Hm H0).
Defined.

(** Why the sign law needs a finite positive [delta_s * delta_s]: for
    [delta_s = 2^-600] the square underflows to zero, the jerk quotient
    [0.0 / 0.0] is not a number, and neither are the acceleration
    diagonals. *)
Remark square_underflow_gives_nan :
  let p := zero_weights (of_dyadic 1 (-600)) [] zero (zero, zero, zero) in
  weights_nonneg p ∧ delta_s_square p = zero ∧
  ∃ m, CalculateKernel p csc_empty = Ok m ∧
       csc_column m 5 = [(5%Z, S754_nan)].
Proof.
  split; [|split].
  - unfold weights_nonneg, nonneg. cbn. repeat split. repeat constructor.
  - by vm_compute.
  - eexists. split; by vm_compute.
Qed.

(** * More of the class: setter sequences, edges and frames *)

(** ** Setter sequences *)

Lemma call_keeps_base c p p' :
  call c p = Ok p' →
  num_of_knots_ p' = num_of_knots_ p ∧ delta_s_ p' = delta_s_ p ∧
  weight_ddx_ p' = weight_ddx_ p ∧ weight_dddx_ p' = weight_dddx_ p.
Proof.
  destruct c; cbn [call]; unfold set_x_ref, set_penalty_dx;
    try case_bool_decide; by intros [= <-].
Qed.

Lemma call_sized c p p' : sized p → call c p = Ok p' → sized p'.
Proof.
  destruct c; cbn [call].
  - apply set_x_ref_sized.
  - intros Hp [= <-]. by apply set_dx_ref_sized.
  - apply set_penalty_dx_sized.
  - intros Hp [= <-]. by apply set_end_state_ref_sized.
Qed.

Lemma call_outcome c p :
  call c p = (if well_sized (num_of_knots_ p) c then call c p else CheckFailed) ∧
  (well_sized (num_of_knots_ p) c = true → returns (call c p)).
Proof.
  destruct c; cbn [call well_sized]; unfold set_x_ref, set_penalty_dx, returns;
    try case_bool_decide; split; try done; intros; by eexists.
Qed.

Lemma configure_invariant cs : ∀ p p',
  sized p → configure cs p = Ok p' →
  sized p' ∧
  num_of_knots_ p' = num_of_knots_ p ∧ delta_s_ p' = delta_s_ p ∧
  weight_ddx_ p' = weight_ddx_ p ∧ weight_dddx_ p' = weight_dddx_ p.
Proof.
  induction cs as [|c cs IH]; intros p p' Hp; cbn [configure].
  - by intros [= <-].
  - intros (p1 & H1 & H2)%obind_Ok.
    destruct (call_keeps_base _ _ _ H1) as (En & Es & Ea & Ej).
    destruct (IH p1 p' (call_sized _ _ _ Hp H1) H2) as (Hs & -> & -> & -> & ->).
    done.
Qed.

(** X1. A sequence of setter calls runs to its end exactly when every
    vector handed to [set_x_ref] and [set_penalty_dx] has as many entries
    as there are knots; otherwise it stops on a failed check, and in no
    other way. *)
Theorem configure_succeeds_iff_sizes_match cs p :
  (forallb (well_sized (num_of_knots_ p)) cs = true → returns (configure cs p)) ∧
  (forallb (well_sized (num_of_knots_ p)) cs = false →
   configure cs p = CheckFailed).
Proof.
  revert p. induction cs as [|c cs IH]; intros p; cbn [configure forallb].
  - split; [by eexists|done].
  - destruct (call_outcome c p) as [Hc Hret].
    destruct (well_sized (num_of_knots_ p) c) eqn:Hw; cbn [andb].
    + destruct (Hret eq_refl) as [p1 Hp1]. rewrite Hp1. cbn [obind].
      destruct (call_keeps_base _ _ _ Hp1) as (<- & _). apply IH.
    + rewrite Hc. done.
Qed.

Lemma configure_succeeds_iff_sizes_match_witness :
  returns (configure [Set_penalty_dx [two; two; two]; Set_dx_ref one half;
                      Set_x_ref four [one; one; one]] knots3) ∧
  configure [Set_dx_ref one half; Set_x_ref four [one]; Set_penalty_dx []] knots3
  = CheckFailed.
Proof.
  split.
  - exact (proj1 (configure_succeeds_iff_sizes_match
                    [Set_penalty_dx [two; two; two]; Set_dx_ref one half;
                     Set_x_ref four [one; one; one]] knots3) eq_refl).
  - exact (proj2 (configure_succeeds_iff_sizes_match
                    [Set_dx_ref one half; Set_x_ref four [one];
                     Set_penalty_dx []] knots3) eq_refl).
Defined.

(** X2. Setter calls keep the object well sized: from an object whose
    penalty vector has one entry per knot (and whose position reference,
    if active, has too), every sequence of calls that runs to its end
    leaves such an object, with the knot count, the spacing and the two
    base weights as they were. *)
Theorem configure_keeps_sizes cs p p' :
  sized p → configure cs p = Ok p' →
  sized p' ∧
  num_of_knots_ p' = num_of_knots_ p ∧ delta_s_ p' = delta_s_ p ∧
  weight_ddx_ p' = weight_ddx_ p ∧ weight_dddx_ p' = weight_dddx_ p.
Proof. apply configure_invariant. Qed.

Lemma configure_keeps_sizes_witness :
  sized (set_dx_ref one half knots3) ∧
  num_of_knots_ (set_dx_ref one half knots3) = 3.
Proof.
  destruct (configure_keeps_sizes [Set_dx_ref one half] knots3
              (set_dx_ref one half knots3)) as (Hs & Hn & _).
  - split; [reflexivity | intros _; reflexivity].
  - reflexivity.
  - exact (conj Hs Hn).
Defined.

(** X3. No setter clears a presence flag: after a sequence of calls a
    flag is set exactly when it was set before or the sequence calls its
    setter. *)
Theorem flags_only_ever_set cs : ∀ p p',
  configure cs p = Ok p' →
  has_x_ref_ p' = has_x_ref_ p || existsb is_set_x_ref cs ∧
  has_dx_ref_ p' = has_dx_ref_ p || existsb is_set_dx_ref cs ∧
  has_end_state_ref_ p' = has_end_state_ref_ p || existsb is_set_end_state_ref cs.
Proof.
  induction cs as [|c cs IH]; intros p p'; cbn [configure existsb].
  - intros [= <-]. by rewrite !orb_false_r.
  - intros (p1 & H1 & H2)%obind_Ok.
    destruct (IH _ _ H2) as (-> & -> & ->). clear IH H2.
    destruct c; cbn [call] in H1; unfold set_x_ref, set_penalty_dx in H1;
      try case_bool_decide; try done; injection H1 as <-;
      cbn; by rewrite ?orb_true_r.
Qed.

Lemma flags_only_ever_set_witness :
  has_x_ref_ (set_dx_ref one half (zero_weights one [] zero (zero, zero, zero)))
  = false ∧
  has_dx_ref_ (set_dx_ref one half (zero_weights one [] zero (zero, zero, zero)))
  = true.
Proof.
  destruct (flags_only_ever_set [Set_dx_ref one half]
              (zero_weights one [] zero (zero, zero, zero)) _ eq_refl)
    as (Hx & Hdx & _).
  exact (conj Hx Hdx).
Defined.

(** X4. A setter overwrites what an earlier call of the same setter
    stored: when the first of two calls of one setter passes its check,
    the two calls leave what the second alone leaves. *)
Theorem later_call_overwrites a b p :
  same_setter a b = true → well_sized (num_of_knots_ p) a = true →
  configure [a; b] p = configure [b] p.
Proof.
  destruct a, b; try done; intros _; cbn [well_sized configure call obind];
    unfold set_x_ref, set_penalty_dx; intros Hw;
    rewrite ?Hw; cbn [obind num_of_knots_]; reflexivity.
Qed.

Lemma later_call_overwrites_witness :
  configure [Set_x_ref one [one; one; one]; Set_x_ref four [two; two; two]] knots3
  = configure [Set_x_ref four [two; two; two]] knots3.
Proof.
  exact (later_call_overwrites (Set_x_ref one [one; one; one])
           (Set_x_ref four [two; two; two]) knots3 eq_refl eq_refl).
Defined.

(** X5. Calls of two different setters can be swapped: both orders give
    the same object, or both fail the check. *)
Theorem different_setters_commute a b p :
  same_setter a b = false → configure [a; b] p = configure [b; a] p.
Proof.
  destruct a, b; try done; intros _; cbn [configure call obind];
    unfold set_x_ref, set_penalty_dx; cbn [obind];
    repeat (case_bool_decide; cbn [obind num_of_knots_]); try done.
Qed.

Lemma different_setters_commute_witness :
  configure [Set_x_ref one [one; one; one]; Set_penalty_dx [two; two; two]] knots3
  = configure [Set_penalty_dx [two; two; two]; Set_x_ref one [one; one; one]] knots3.
Proof.
  exact (different_setters_commute (Set_x_ref one [one; one; one])
           (Set_penalty_dx [two; two; two]) knots3 eq_refl).
Defined.

(** ** Edges of CalculateKernel *)

Lemma emplace_back_length col row v st st' :
  emplace_back col row v st = Ok st' →
  length (columns st') = length (columns st).
Proof.
  unfold emplace_back. destruct (in_range _ _); [|done].
  intros [= <-]. cbn [columns]. apply length_alter.
Qed.

Lemma sizes_computed n k v size :
  kNumParam_of n = Ok k → kNumValue_of n = Ok v → resize_size k = Ok size →
  k = (3 * n)%Z ∧ v = (4 * n - 1)%Z ∧ (0 ≤ n)%Z ∧ Z.of_nat size = (3 * n)%Z.
Proof.
  unfold kNumParam_of, kNumValue_of, resize_size, int_of.
  repeat (case_bool_decide; cbn [obind]; try done).
  intros [= <-] [= <-] [= <-]. lia.
Qed.

Lemma fill_columns_length p st :
  fill_columns p = Ok st →
  (0 ≤ static_cast_int (Z.of_nat (num_of_knots_ p)))%Z ∧
  Z.of_nat (length (columns st)) =
    (3 * static_cast_int (Z.of_nat (num_of_knots_ p)))%Z.
Proof.
  unfold fill_columns, for_range. intros H.
  apply obind_Ok in H as (k & Hk & H). apply obind_Ok in H as (v & Hv & H).
  apply obind_Ok in H as (size & Hsize & H).
  destruct (sizes_computed _ _ _ _ Hk Hv Hsize) as (_ & _ & Hn & Hlen).
  split; [done|]. rewrite <- Hlen. f_equal. clear Hk Hv Hsize Hlen Hn.
  repeat match type of H with
         | obind _ _ = Ok _ => apply obind_Ok in H as (? & ? & H)
         end.
  set (I := λ st : kernel_state, length (columns st) = size).
  assert (Hloop : ∀ count i body (s s' : kernel_state),
            (∀ i s s', body i s = Ok s' → I s → I s') →
            for_steps count i body s = Ok s' → I s → I s')
    by (intros; by eapply (for_steps_invariant I)).
  assert (Hstep : ∀ col row v s s', emplace_back col row v s = Ok s' → I s → I s').
  { unfold I. intros col row v' s s' Hs <-. by eapply emplace_back_length. }
  change (I st).
  repeat match goal with
         | H : emplace_back _ _ _ _ = Ok ?s |- I ?s =>
             eapply Hstep; [exact H|]
         | H : for_steps _ _ _ _ = Ok ?s |- I ?s =>
             eapply Hloop; [|exact H|];
             [intros ? ? ? Hb Hc; cbn beta in Hb;
              try apply obind_Ok in Hb as (? & ? & Hb);
              exact (Hstep _ _ _ _ _ Hb Hc)|]
         end.
  unfold I. cbn [columns]. apply length_replicate.
Qed.

(** X6. Given a knot count whose [4 * n] fits an [int] and a penalty
    vector with one entry per knot, [CalculateKernel] returns exactly when
    there are two knots or more; with no knot at all it indexes [columns]
    at [-1], outside the vector. *)
Theorem kernel_returns_iff_two_knots p out :
  kernel_fits_int p →
  length (penalty_dx_ p) = num_of_knots_ p →
  (returns (CalculateKernel p out) ↔ 2 ≤ num_of_knots_ p) ∧
  (num_of_knots_ p = 0 → CalculateKernel p out = Undefined).
Proof.
  intros Hfit Hpen.
  assert (H0 : num_of_knots_ p = 0 → CalculateKernel p out = Undefined).
  { intros Hn. unfold CalculateKernel, fill_columns. rewrite Hn. reflexivity. }
  assert (H1 : num_of_knots_ p = 1 → CalculateKernel p out = CheckFailed).
  { intros Hn. unfold CalculateKernel, fill_columns. rewrite Hn in *.
    destruct (penalty_dx_ p) as [|pen [|]]; try discriminate Hpen.
    by cbv -[add mul div]. }
  split; [split|done].
  - intros [m Hm].
    destruct (num_of_knots_ p) as [|[|n]] eqn:En; [| |lia].
    + by rewrite H0 in Hm.
    + by rewrite H1 in Hm.
  - intros Hn. unfold CalculateKernel.
    destruct (kernel_sizes p Hfit) as (-> & _ & -> & _). cbn [obind].
    rewrite fill_columns_closed by done. cbn [obind value_index columns].
    rewrite bool_decide_true by done.
    destruct (emit_columns _ _ _). by eexists.
Qed.

Lemma kernel_returns_iff_two_knots_witness :
  returns (CalculateKernel knots3 csc_empty) ∧
  ¬ returns (CalculateKernel (with_one_knot knots3) csc_empty).
Proof.
  destruct (kernel_returns_iff_two_knots knots3 csc_empty) as [[_ Hr] _];
    [unfold kernel_fits_int, INT_MAX; cbn [knots3 num_of_knots_]; lia
    |reflexivity|].
  destruct (kernel_returns_iff_two_knots (with_one_knot knots3) csc_empty)
    as [[Hn _] _];
    [unfold kernel_fits_int, INT_MAX; cbn [with_one_knot num_of_knots_]; lia
    |reflexivity|].
  split.
  - apply Hr. cbn [knots3 num_of_knots_]. lia.
  - intros H. apply Hn in H. cbn [with_one_knot num_of_knots_] in H. lia.
Defined.

(** X7. What the count check buys, whatever the object holds: whenever
    [CalculateKernel] returns on fresh vectors, it has pushed [4n - 1]
    values and [4n - 1] row indices, and [3n + 1] column offsets that
    start at [0], never step down, and end at [4n - 1], where [n] is the
    [int] that the knot count narrows to (the knot count itself when it
    fits). *)
Theorem kernel_returns_only_full_matrices p m :
  CalculateKernel p csc_empty = Ok m →
  let n := static_cast_int (Z.of_nat (num_of_knots_ p)) in
  Z.of_nat (length (P_data m)) = (4 * n - 1)%Z ∧
  Z.of_nat (length (P_indices m)) = (4 * n - 1)%Z ∧
  Z.of_nat (length (P_indptr m)) = (3 * n + 1)%Z ∧
  P_indptr m !! 0 = Some 0%Z ∧
  non_decreasing (P_indptr m) ∧
  P_indptr m !! Z.to_nat (3 * n) = Some (4 * n - 1)%Z.
Proof.
  unfold CalculateKernel. cbv zeta.
  intros (v & Hv & H)%obind_Ok. apply obind_Ok in H as (st & Hst & H).
  case_bool_decide as Hvi; [|done].
  rewrite emit_columns_closed in H. injection H as <-.
  change {| P_data := _; P_indices := _; P_indptr := _ |}
    with (assemble (columns st)).
  assert (Hval : v = (4 * static_cast_int (Z.of_nat (num_of_knots_ p)) - 1)%Z).
  { revert Hv. unfold kNumValue_of, int_of.
    repeat (case_bool_decide; cbn [obind]; try done). by intros [= <-]. }
  pose proof (fill_columns_counted p st Hst) as Hcnt. unfold counted in Hcnt.
  destruct (fill_columns_length p st Hst) as [Hn Hlen].
  destruct (assemble_lengths (columns st)) as (Hd & Hi & Hp).
  destruct (assemble_indptr (columns st)) as (Hp0 & Hmono & Hlast).
  repeat split; try done; try lia.
  rewrite <- Hlen, Nat2Z.id, Hlast. f_equal. lia.
Qed.

Lemma kernel_returns_only_full_matrices_witness :
  ∃ m, CalculateKernel knots3 csc_empty = Ok m ∧
       Z.of_nat (length (P_data m)) = 11%Z ∧ length (P_indptr m) = 10.
Proof.
  eexists. split; [vm_compute; reflexivity|].
  match goal with |- context [P_data ?m] =>
    destruct (kernel_returns_only_full_matrices knots3 m) as (Hd & _ & Hp & _)
  end; [vm_compute; reflexivity|].
  exact (conj Hd (Nat2Z.inj _ 10 Hp)).
Defined.

(** X8. [CalculateKernel] pushes behind what the three vectors already
    hold and counts its offsets from zero all the same: on vectors that
    are not empty it fails as on fresh ones, or returns the old contents
    followed by exactly what it returns on fresh ones. *)
Theorem kernel_appends_to_its_arguments p out :
  CalculateKernel p out =
  do m <- CalculateKernel p csc_empty; Ok (csc_app out m).
Proof.
  unfold CalculateKernel.
  destruct (kNumValue_of _) as [v| | | |]; try done. cbn [obind].
  destruct (fill_columns p) as [st| | | |]; try done.
  cbn [obind]. case_bool_decide; [|done].
  rewrite !emit_columns_closed. cbn [obind P_data P_indices P_indptr csc_empty].
  unfold csc_app. cbn [P_data P_indices P_indptr app].
  by rewrite <- !app_assoc.
Qed.

(** ** The column offsets in closed form *)

Lemma stored_prefix_length p (c : nat) :
  2 ≤ num_of_knots_ p → c ≤ 3 * num_of_knots_ p →
  Z.of_nat (length (concat (take c (tabulate (stored_column p)
                                      (3 * num_of_knots_ p))))) =
  column_offset (num_of_knots_ p) c.
Proof.
  intros Hn. induction c as [|c IH]; intros Hc.
  - unfold column_offset. by rewrite bool_decide_true by lia.
  - rewrite (take_S_r _ _ (stored_column p (Z.of_nat c)))
      by (apply lookup_tabulate; lia).
    rewrite concat_app, length_app, Nat2Z.inj_add, IH by lia.
    unfold column_offset, stored_column. cbn [concat].
    repeat (case_bool_decide; try lia); cbn [length app]; lia.
Qed.

(** X9. With two knots or more, a knot count whose [4 * n] fits an
    [int], column [c] starts at offset [c] up to the first acceleration
    column [2n], at [2c - 2n] for the later acceleration columns, and the
    closing offset is [4n - 1]. *)
Theorem column_offsets_closed_form p m :
  2 ≤ num_of_knots_ p → kernel_fits_int p →
  length (penalty_dx_ p) = num_of_knots_ p →
  CalculateKernel p csc_empty = Ok m →
  ∀ c : nat, c ≤ 3 * num_of_knots_ p →
    P_indptr m !! c = Some (column_offset (num_of_knots_ p) c).
Proof.
  intros Hn Hfit Hpen. rewrite CalculateKernel_closed by done.
  intros [= <-] c Hc. unfold assemble. cbn [P_indptr].
  rewrite (lookup_offsets _ 0 c) by (rewrite length_tabulate; lia).
  by rewrite Z.add_0_l, stored_prefix_length.
Qed.

Lemma column_offsets_closed_form_witness :
  ∃ m, CalculateKernel knots3 csc_empty = Ok m ∧
       P_indptr m !! 7 = Some 8%Z ∧ P_indptr m !! 9 = Some 11%Z.
Proof.
  eexists. split; [vm_compute; reflexivity|].
  match goal with |- context [P_indptr ?m] =>
    pose proof (column_offsets_closed_form knots3 m
                  ltac:(cbn [knots3 num_of_knots_]; lia)
                  ltac:(unfold kernel_fits_int, INT_MAX;
                        cbn [knots3 num_of_knots_]; lia)
                  eq_refl ltac:(vm_compute; reflexivity)) as H
  end.
  split; [apply (H 7)|apply (H 9)]; cbn [knots3 num_of_knots_]; lia.
Defined.

(** ** CalculateOffset on any vector *)

Lemma resize_tabulate (q0 : list c_float) len :
  resize len zero q0 = tabulate (λ k, nth (Z.to_nat k) q0 zero) len.
Proof.
  apply list_eq; intros i. destruct (decide (i < len)) as [Hi|Hi].
  - rewrite lookup_tabulate, Nat2Z.id, nth_lookup by done.
    destruct (decide (i < length q0)) as [Hq|Hq].
    + rewrite lookup_resize by done.
      destruct (lookup_lt_is_Some_2 q0 i Hq) as [x ->]. done.
    + rewrite lookup_resize_new, (lookup_ge_None_2 q0 i) by lia. done.
  - rewrite lookup_resize_old by lia.
    rewrite lookup_ge_None_2; [done|]. rewrite length_tabulate. lia.
Qed.

Lemma CalculateOffset_from p q0 :
  1 ≤ num_of_knots_ p → offset_fits_int p →
  (has_x_ref_ p = true → length (x_ref_ p) = num_of_knots_ p) →
  CalculateOffset p q0 =
  Ok (tabulate (q_entry_from p (λ k, nth (Z.to_nat k) q0 zero))
        (3 * num_of_knots_ p)).
Proof.
  intros Hn Hfit Hx. unfold CalculateOffset, for_range.
  destruct (offset_sizes p Hfit) as (-> & -> & Hsize). cbn [obind].
  rewrite Hsize. cbn [obind]. clear Hsize.
  set (n := Z.of_nat (num_of_knots_ p)).
  rewrite resize_tabulate.
  rewrite (offset_steps p) by (try done; lia). cbn [obind].
  replace (0 + Z.of_nat (Z.to_nat (n - 0)))%Z with n by lia.
  destruct (has_end_state_ref_ p) eqn:He.
  - rewrite at_add_tabulate by lia. cbn [obind].
    rewrite at_add_tabulate by lia. cbn [obind].
    rewrite at_add_tabulate by lia.
    f_equal. apply tabulate_ext; intros k Hk.
    unfold q_entry_from. rewrite He. done.
  - f_equal. apply tabulate_ext; intros k Hk.
    unfold q_entry_from. rewrite He. done.
Qed.

(** X10. [CalculateOffset] does not clear the vector it is given: with
    one knot or more, a knot count whose [3 * n] fits an [int], it returns a vector of length [3n] in which every
    contribution has been added onto what the argument held at that index
    ([0.0] where the argument was shorter). *)
Theorem offset_adds_onto_its_argument p q0 :
  1 ≤ num_of_knots_ p → offset_fits_int p →
  (has_x_ref_ p = true → length (x_ref_ p) = num_of_knots_ p) →
  let n := num_of_knots_ p in
  let old (k : nat) := nth k q0 zero in
  let last (i : nat) := has_end_state_ref_ p && bool_decide (i = n - 1) in
  let we := weight_end_state_ p in
  let er := end_state_ref_ p in
  ∃ q : list c_float,
    CalculateOffset p q0 = Ok q ∧
    length q = 3 * n ∧
    ∀ i : nat, i < n →
      q !! i =
        Some (accumulate (last i)
                (accumulate (has_x_ref_ p) (old i)
                   (neg_two * weight_x_ref_ p * nth i (x_ref_ p) zero)%D)
                (neg_two * arr0 we * arr0 er)%D) ∧
      q !! (n + i) =
        Some (accumulate (last i)
                (accumulate (has_dx_ref_ p) (old (n + i))
                   (neg_two * weight_dx_ref_ p * dx_ref_ p)%D)
                (neg_two * arr1 we * arr1 er)%D) ∧
      q !! (2 * n + i) =
        Some (accumulate (last i) (old (2 * n + i))
                (neg_two * arr2 we * arr2 er)%D).
Proof.
  intros Hn Hfit Hx n old last we er.
  eexists. split; [by apply CalculateOffset_from|].
  split; [by apply length_tabulate|].
  intros i Hi. subst n old last we er.
  rewrite !lookup_tabulate by lia.
  unfold q_entry_from, after_knots, x_term, dx_term, end_term0, end_term1,
    end_term2, x_ref_at.
  rewrite !Nat2Z.id.
  repeat split; f_equal;
    destruct (has_end_state_ref_ p), (has_x_ref_ p), (has_dx_ref_ p);
    cbn [andb accumulate];
    repeat (case_bool_decide; try lia); reflexivity.
Qed.

Lemma offset_adds_onto_its_argument_witness :
  ∃ q : list c_float,
    CalculateOffset knots3 [one; two] = Ok q ∧
    q !! 1 = Some (two + neg_two * of_Z 7 * two)%D.
Proof.
  destruct (offset_adds_onto_its_argument knots3 [one; two]) as (q & Hq & _ & Hi);
    [cbn [knots3 num_of_knots_]; lia
    |unfold offset_fits_int, INT_MAX; cbn [knots3 num_of_knots_]; lia
    |reflexivity |].
  exists q. split; [exact Hq|].
  exact (proj1 (Hi 1 ltac:(cbn [knots3 num_of_knots_]; lia))).
Defined.

(** X11. With no knot, [CalculateOffset] empties the vector and returns
    it, unless the end-state reference is active: then [q->at(n - 1)]
    is [at(-1)] and throws. *)
Theorem offset_without_knots p q0 :
  num_of_knots_ p = 0 →
  CalculateOffset p q0 = if has_end_state_ref_ p then OutOfRange else Ok [].
Proof.
  intros Hn. unfold CalculateOffset, for_range. rewrite Hn.
  change (static_cast_int (Z.of_nat 0)) with 0%Z.
  change (kNumParam_of 0) with (Ok (A := Z) 0%Z). cbn [obind].
  change (resize_size 0) with (Ok 0). cbn [obind].
  cbn [Z.of_nat Z.mul Z.to_nat Z.sub Z.opp for_steps obind]. rewrite resize_0.
  by destruct (has_end_state_ref_ p).
Qed.

Lemma offset_without_knots_witness :
  CalculateOffset (with_no_knot knots3) [one; two] = OutOfRange.
Proof. exact (offset_without_knots (with_no_knot knots3) [one; two] eq_refl). Defined.

Lemma idle_steps p count : ∀ lo (q : list c_float),
  has_x_ref_ p = false → has_dx_ref_ p = false →
  for_steps count lo (λ i q,
    do q <- (if has_x_ref_ p then
               do x <- vec_get (x_ref_ p) i;
               at_add q i (neg_two * weight_x_ref_ p * x)%D
             else Ok q);
    if has_dx_ref_ p then
      at_add q (Z.of_nat (num_of_knots_ p) + i)
        (neg_two * weight_dx_ref_ p * dx_ref_ p)%D
    else Ok q) q = Ok q.
Proof.
  intros lo q Hx Hdx. rewrite Hx, Hdx. revert lo q.
  induction count as [|count IH]; intros lo q; [done|].
  cbn [for_steps obind]. apply IH.
Qed.

(** X12. With no reference active, [CalculateOffset] only resizes: it
    returns the argument cut or padded with [0.0] to length [3n], for
    every knot count whose [3 * n] fits an [int] and whatever weights and
    targets are stored. *)
Theorem offset_without_references_resizes p q0 :
  offset_fits_int p →
  has_x_ref_ p = false → has_dx_ref_ p = false →
  has_end_state_ref_ p = false →
  CalculateOffset p q0 = Ok (resize (3 * num_of_knots_ p) zero q0).
Proof.
  intros Hfit Hx Hdx He. unfold CalculateOffset, for_range.
  destruct (offset_sizes p Hfit) as (-> & -> & Hsize). cbn [obind].
  rewrite Hsize. cbn [obind].
  rewrite idle_steps by done. cbn [obind]. by rewrite He.
Qed.

Lemma offset_without_references_resizes_witness :
  CalculateOffset (zero_weights one [] zero (zero, zero, zero))
    [one; two; four; one; two; four; one; two]
  = Ok [one; two; four; one; two; four].
Proof.
  apply (offset_without_references_resizes
           (zero_weights one [] zero (zero, zero, zero))
           [one; two; four; one; two; four; one; two]);
    [unfold offset_fits_int, INT_MAX; cbn [zero_weights num_of_knots_]; lia
    |reflexivity..].
Defined.

(** ** What each function reads *)

(** X13. [P] is a function of the knot count, the spacing, the weights
    and the penalties alone: two objects that agree on these give the same
    outcome of [CalculateKernel], whatever reference targets and flags
    they hold. *)
Theorem kernel_reads_only_weights p p' out :
  kernel_inputs p = kernel_inputs p' →
  CalculateKernel p out = CalculateKernel p' out.
Proof.
  destruct p, p'. unfold kernel_inputs. cbn. intros [= -> -> -> -> -> -> -> ->].
  reflexivity.
Qed.

Lemma kernel_reads_only_weights_witness :
  CalculateKernel knots3 csc_empty =
  CalculateKernel
    (with_flags false false false (with_x_ref_data (of_Z 7) [] knots3)) csc_empty.
Proof.
  exact (kernel_reads_only_weights knots3
           (with_flags false false false (with_x_ref_data (of_Z 7) [] knots3))
           csc_empty eq_refl).
Defined.

(** X14. [q] is a function of the knot count, the flags and what is
    stored for the three references alone: the spacing, the acceleration
    and jerk weights and the penalties do not reach it. *)
Theorem offset_reads_only_references p p' q0 :
  offset_inputs p = offset_inputs p' →
  CalculateOffset p q0 = CalculateOffset p' q0.
Proof.
  destruct p, p'. unfold offset_inputs. cbn.
  intros [= -> -> -> -> -> -> -> -> -> ->]. reflexivity.
Qed.

Lemma offset_reads_only_references_witness :
  ∃ p', set_penalty_dx [four; four; four] knots3 = Ok p' ∧
        CalculateOffset knots3 [] = CalculateOffset p' [].
Proof.
  eexists. split; [reflexivity|].
  exact (offset_reads_only_references knots3 _ [] eq_refl).
Defined.

(** ** Setters and the matrix *)

Lemma stored_column_untouched c p p' (col : nat) :
  1 ≤ num_of_knots_ p → col < 3 * num_of_knots_ p →
  call c p = Ok p' → touched (num_of_knots_ p) c col = false →
  stored_column p' (Z.of_nat col) = stored_column p (Z.of_nat col).
Proof.
  intros Hn Hcol.
  destruct c; cbn [call touched]; intros Hcall Ht;
    apply bool_decide_eq_false in Ht; revert Hcall;
    unfold set_x_ref, set_penalty_dx;
    try case_bool_decide; try done; intros [= <-];
    unfold stored_column, diag_coeff, cross_coeff, delta_s_square, penalty_at;
    cbn [num_of_knots_ delta_s_ weight_ddx_ weight_dddx_ weight_x_ref_
         weight_dx_ref_ penalty_dx_ weight_end_state_ set_dx_ref
         set_end_state_ref];
    repeat (case_bool_decide; try lia); reflexivity.
Qed.

(** X15. A setter changes [P] only in the columns of its own block: with
    two knots or more, a knot count whose [4 * n] fits an [int], after a
    call that passes its check, the row indices and the column offsets
    are the same, and so is every column outside the position block for
    [set_x_ref], outside the velocity block for [set_dx_ref] and
    [set_penalty_dx], and other than the three terminal columns for
    [set_end_state_ref]. *)
Theorem setter_changes_only_its_columns c p p' m m' :
  2 ≤ num_of_knots_ p → kernel_fits_int p → sized p →
  call c p = Ok p' →
  CalculateKernel p csc_empty = Ok m → CalculateKernel p' csc_empty = Ok m' →
  P_indices m' = P_indices m ∧ P_indptr m' = P_indptr m ∧
  ∀ col : nat, col < 3 * num_of_knots_ p →
    touched (num_of_knots_ p) c col = false →
    csc_column m' col = csc_column m col.
Proof.
  intros Hn Hfit Hp Hc Hm Hm'.
  destruct (call_keeps_base _ _ _ Hc) as (En & _).
  assert (Hfit' : kernel_fits_int p')
    by (unfold kernel_fits_int in *; by rewrite En).
  destruct (call_sized _ _ _ Hp Hc) as [Hpen' _]. destruct Hp as [Hpen _].
  destruct (sparsity_pattern p' p m' m) as [Hi Hptr]; try done; try lia.
  split; [done|]. split; [done|]. intros col Hcol Ht.
  destruct (kernel_columns p Hn Hfit Hpen)
    as (st & m0 & _ & Hm0 & _ & _ & _ & Hcols).
  destruct (kernel_columns p') as (st' & m0' & _ & Hm0' & _ & _ & _ & Hcols');
    [lia|done|done|].
  rewrite Hm in Hm0. rewrite Hm' in Hm0'.
  injection Hm0 as <-. injection Hm0' as <-.
  destruct (Hcols col Hcol) as [_ ->].
  destruct (Hcols' col ltac:(lia)) as [_ ->].
  by rewrite (stored_column_untouched c p p' col ltac:(lia) Hcol Hc Ht).
Qed.

Lemma setter_changes_only_its_columns_witness :
  ∃ m m', CalculateKernel knots3 csc_empty = Ok m ∧
          CalculateKernel (set_end_state_ref (one, one, one) (zero, zero, zero) knots3)
            csc_empty = Ok m' ∧
          csc_column m' 7 = csc_column m 7.
Proof.
  eexists _, _. split; [vm_compute; reflexivity|].
  split; [vm_compute; reflexivity|].
  refine (proj2 (proj2 (setter_changes_only_its_columns
                          (Set_end_state_ref (one, one, one) (zero, zero, zero))
                          knots3 _ _ _ _ _ _ _ _ _)) 7 _ _).
  - cbn [knots3 num_of_knots_]. lia.
  - unfold kernel_fits_int, INT_MAX. cbn [knots3 num_of_knots_]. lia.
  - split; [reflexivity | intros _; reflexivity].
  - reflexivity.
  - vm_compute. reflexivity.
  - vm_compute. reflexivity.
  - cbn [knots3 num_of_knots_]. lia.
  - reflexivity.
Defined.

(** X16. A well-sized object of two knots or more, of a knot count whose
    [4 * n] fits an [int], stays usable: after any
    sequence of setter calls that runs to its end, [CalculateKernel] and
    [CalculateOffset] both return. *)
Theorem configured_problem_yields_P_and_q cs p p' :
  sized p → 2 ≤ num_of_knots_ p → kernel_fits_int p →
  configure cs p = Ok p' →
  returns (CalculateKernel p' csc_empty) ∧ returns (CalculateOffset p' []).
Proof.
  intros Hp Hn Hfit Hcs.
  destruct (configure_invariant cs p p' Hp Hcs) as ([Hpen Hx] & En & _).
  assert (Hfit' : kernel_fits_int p')
    by (unfold kernel_fits_int in *; by rewrite En).
  split.
  - eexists. apply CalculateKernel_closed; [lia|done|done].
  - eexists. apply CalculateOffset_closed; [lia| |done].
    unfold kernel_fits_int, offset_fits_int in *. lia.
Qed.

Lemma configured_problem_yields_P_and_q_witness :
  returns (CalculateKernel (set_dx_ref one half knots3) csc_empty) ∧
  returns (CalculateOffset (set_dx_ref one half knots3) []).
Proof.
  apply (configured_problem_yields_P_and_q [Set_dx_ref one half] knots3).
  - split; [reflexivity | intros _; reflexivity].
  - cbn [knots3 num_of_knots_]. lia.
  - unfold kernel_fits_int, INT_MAX. cbn [knots3 num_of_knots_]. lia.
  - reflexivity.
Defined.

(** X17. Read as numbers, the position entries of [q] are the reference
    terms themselves: with the position reference active and on a fresh
    vector, every [q[i]] that the end-state terms do not reach compares
    equal to [-2 * weight_x_ref * x_ref[i]], provided that product is a
    number and [3 * n] fits an [int]. *)
Theorem position_entry_equals_its_term p (i : nat) :
  1 ≤ num_of_knots_ p → offset_fits_int p →
  length (x_ref_ p) = num_of_knots_ p →
  has_x_ref_ p = true →
  i < num_of_knots_ p →
  has_end_state_ref_ p && bool_decide (i = num_of_knots_ p - 1) = false →
  (neg_two * weight_x_ref_ p * nth i (x_ref_ p) zero)%D ≠ S754_nan →
  ∃ (q : list c_float) (v : c_float),
    CalculateOffset p [] = Ok q ∧ q !! i = Some v ∧
    eqb v (neg_two * weight_x_ref_ p * nth i (x_ref_ p) zero)%D = true.
Proof.
  intros Hn Hfit Hx Hhas Hi Hlast Hnan.
  eexists _, _. split; [by apply CalculateOffset_closed|].
  rewrite lookup_tabulate by lia. split; [reflexivity|].
  unfold q_entry, after_knots, x_term, x_ref_at. rewrite Nat2Z.id, Hhas.
  destruct (has_end_state_ref_ p); cbn [andb accumulate] in *;
    repeat (case_bool_decide; try lia; try done); cbn [accumulate];
    by apply zero_add_eqb.
Qed.

Lemma position_entry_equals_its_term_witness :
  ∃ (q : list c_float) (v : c_float),
    CalculateOffset knots3 [] = Ok q ∧ q !! 1 = Some v ∧
    eqb v (neg_two * of_Z 7 * two)%D = true.
Proof.
  apply (position_entry_equals_its_term knots3 1).
  - cbn [knots3 num_of_knots_]. lia.
  - unfold offset_fits_int, INT_MAX. cbn [knots3 num_of_knots_]. lia.
  - reflexivity.
  - reflexivity.
  - cbn [knots3 num_of_knots_]. lia.
  - reflexivity.
  - vm_compute. discriminate.
Defined.

(** ** The constructor *)

(** X18. The constructor leaves one penalty [0.0] per knot; on the
    freshly built object of two knots or more, of a knot count whose
    [4 * n] fits an [int], [CalculateKernel] returns,
    and every velocity diagonal before the terminal one carries
    [weight_dx_ref + 0.0], doubled. *)
Theorem fresh_object_has_zero_penalties base :
  penalty_dx_ base = [] →
  let p := construct base in
  let n := num_of_knots_ base in
  penalty_dx_ p = replicate n zero ∧
  (2 ≤ n → kernel_fits_int base →
   ∃ m, CalculateKernel p csc_empty = Ok m ∧
        ∀ i : nat, i < n - 1 →
          csc_column m (n + i) =
            [(Z.of_nat (n + i), ((weight_dx_ref_ base + zero) * two)%D)]).
Proof.
  intros Hbase p n.
  assert (Hpen : penalty_dx_ p = replicate n zero).
  { subst p n. unfold construct. cbn [penalty_dx_]. by rewrite Hbase, resize_nil. }
  split; [done|]. intros Hn Hfit.
  assert (Hlen : length (penalty_dx_ p) = num_of_knots_ p)
    by (rewrite Hpen; apply length_replicate).
  destruct (kernel_columns p Hn Hfit Hlen)
    as (st & m & _ & Hm & _ & _ & _ & Hcol).
  exists m. split; [done|]. intros i Hi.
  destruct (Hcol (n + i)) as [_ ->]; [subst p n; cbn [construct num_of_knots_]; lia|].
  unfold stored_column, diag_coeff, penalty_at. rewrite Hpen.
  change (num_of_knots_ p) with n. change (weight_dx_ref_ p) with (weight_dx_ref_ base).
  repeat (case_bool_decide; try lia). cbn [fmap list_fmap doubled fst snd].
  replace (Z.to_nat (Z.of_nat (n + i) - Z.of_nat n)) with i by lia.
  rewrite nth_lookup, lookup_replicate_2 by lia. done.
Qed.

Lemma fresh_object_has_zero_penalties_witness :
  penalty_dx_ (construct (with_x_ref_data one [] (with_no_penalty knots3)))
  = [zero; zero; zero] ∧
  ∃ m, CalculateKernel
         (construct (with_x_ref_data one [] (with_no_penalty knots3)))
         csc_empty = Ok m ∧
       csc_column m 4 = [(4%Z, ((of_Z 11 + zero) * two)%D)].
Proof.
  destruct (fresh_object_has_zero_penalties
              (with_x_ref_data one [] (with_no_penalty knots3)) eq_refl)
    as [Hpen Hker].
  split; [exact Hpen|].
  destruct Hker as (m & Hm & Hcol).
  - cbn [with_x_ref_data with_no_penalty knots3 num_of_knots_]. lia.
  - unfold kernel_fits_int, INT_MAX.
    cbn [with_x_ref_data with_no_penalty knots3 num_of_knots_]. lia.
  - exists m. split; [exact Hm|].
    apply (Hcol 1).
    cbn [with_x_ref_data with_no_penalty knots3 num_of_knots_]. lia.
Defined.
